(** * IRPF x Judiciario: the aggregation and comparison engine of [app.py]

    A shallow embedding of the data path of the dashboard script:
    loading and caching the table, the region/year/occupation filter, the
    volume-weighted aggregates, the comparison figures, the year-by-year
    series and its ratio pivot.

    Numbers are IEEE 754 binary64 values ([PrimFloat.float]), which is what
    pandas and numpy compute with ([float64]); [nan] is numpy's [np.nan] and
    [is_nan] is [pd.isna] on a number.  (A column that pandas reads as
    [int64] behaves like its [float64] image as long as its sums stay below
    2^53.)  Years are integers.  A data frame is the list of its rows, in
    storage order. *)

From Stdlib Require Import Floats ZArith List String Ascii Bool Lia.
From Stdlib Require Import Uint63.
From Stdlib Require Import Sorting.Sorted Sorting.Permutation.
From Stdlib Require Import Structures.OrderedTypeEx Relations.Relation_Definitions.
Import ListNotations.

Local Open Scope bool_scope.
Local Open Scope list_scope.

(** ** The table *)

(** One record of the CSV file, with the columns the script reads. *)
Record Row := mkRow {
  ano_base : Z;
  uf : string;
  ocupacao_principal : string;
  qtde_contribuintes : float;
  rend_total : float;
  rend_isentos_e_nao_tributaveis : float;
  imposto_pago : float;
  imposto_devido_total : float;
  rend_total_por_contrib : float;
  pct_isento : float;
  aliq_efetiva_paga : float
}.

Definition DataFrame := list Row.

(** ** Configuration *)

Definition OCUP_JUD : string :=
  "Membro do Poder Judiciário e de Tribunal de Contas".
Definition ANO_MIN : Z := 2021.

(** The label the series gives to the reference rows (line 263). *)
Definition ROTULO_JUD : string := "Judiciário".

(** ** Helpers *)

(** [pd.isna] on a float. *)
Definition isna (x : float) : bool := is_nan x.

(** [safe_div(a, b)]: [b] may be Python's [None]; [b == 0] is the IEEE
    comparison, true of both zeros and false of NaN. *)
Definition safe_div (a : float) (b : option float) : float :=
  match b with
  | None => nan
  | Some b' => if (b' =? 0)%float || isna b' then nan else (a / b')%float
  end.

(** [Series.sum()] with pandas' defaults ([skipna=True], [min_count=0]):
    every NaN is replaced by 0 and the values are added up from 0.  (numpy
    may associate the additions differently; that changes the result by
    rounding only.) *)
Definition fillna0 (x : float) : float := if isna x then 0%float else x.

Definition Series_sum (xs : list float) : float :=
  fold_left (fun acc x => (acc + fillna0 x)%float) xs 0%float.

Definition col {A : Type} (f : Row -> A) (df : DataFrame) : list A := map f df.

(** ** The weighted aggregates *)

Module Agg.
(** The dictionary returned by [agregados_ponderados], one field per key. *)
Record t := mk {
  tot_contrib : float;
  tot_rend : float;
  tot_isento : float;
  tot_pago : float;
  tot_devido : float;
  renda_media : float;
  pct_isento : float;
  aliq_paga : float;
  aliq_devida : float;
  isento_medio : float
}.
End Agg.

Definition agregados_ponderados (df_part : DataFrame) : Agg.t :=
  let tot_contrib := Series_sum (col qtde_contribuintes df_part) in
  let tot_rend := Series_sum (col rend_total df_part) in
  let tot_isento := Series_sum (col rend_isentos_e_nao_tributaveis df_part) in
  let tot_pago := Series_sum (col imposto_pago df_part) in
  let tot_devido := Series_sum (col imposto_devido_total df_part) in
  let renda_media := safe_div tot_rend (Some tot_contrib) in
  let pct_isento := safe_div tot_isento (Some tot_rend) in
  let aliq_paga := safe_div tot_pago (Some tot_rend) in
  let aliq_devida := safe_div tot_devido (Some tot_rend) in
  Agg.mk tot_contrib tot_rend tot_isento tot_pago tot_devido
         renda_media pct_isento aliq_paga aliq_devida
         (if negb (isna renda_media) && negb (isna pct_isento)
          then (renda_media * pct_isento)%float else nan).

(** Lines 189-190. *)
Definition ratio_renda (agg_user agg_jud : Agg.t) : float :=
  safe_div (Agg.renda_media agg_jud) (Some (Agg.renda_media agg_user)).

Definition dif_aliq_paga_pp (agg_user agg_jud : Agg.t) : float :=
  if negb (isna (Agg.aliq_paga agg_jud)) && negb (isna (Agg.aliq_paga agg_user))
  then ((Agg.aliq_paga agg_jud - Agg.aliq_paga agg_user) * 100)%float
  else nan.

(** ** Ordering and distinct values *)

Section Ordenacao.
Context {A : Type}.
Variable leb : A -> A -> bool.

(** Stable insertion: [x] goes before the first element it does not exceed. *)
Fixpoint insere (x : A) (l : list A) : list A :=
  match l with
  | [] => [x]
  | y :: l' => if leb x y then x :: l else y :: insere x l'
  end.

(** Python's [sorted] and pandas' multi-key [sort_values] are stable
    sorts: elements with equal keys keep their relative order. *)
Fixpoint sorted (l : list A) : list A :=
  match l with
  | [] => []
  | x :: l' => insere x (sorted l')
  end.
End Ordenacao.

(** [Series.unique()]: distinct values in order of first appearance. *)
Fixpoint unique {A : Type} (eqb : A -> A -> bool) (l : list A) : list A :=
  match l with
  | [] => []
  | x :: l' => x :: filter (fun y => negb (eqb x y)) (unique eqb l')
  end.

(** Python compares strings by code point, which on UTF-8 text is the
    byte-wise order of [String.leb]. *)
Definition str_leb (a b : string) : bool := String.leb a b.

(** ** Sidebar controls *)

Definition ufs (df : DataFrame) : list string :=
  sorted str_leb (unique String.eqb (col uf df)).

Definition ocup_uf (df : DataFrame) (uf_sel : string) : list string :=
  sorted str_leb
    (unique String.eqb
       (col ocupacao_principal (filter (fun r => String.eqb (uf r) uf_sel) df))).

Definition ocup_uf_user (df : DataFrame) (uf_sel : string) : list string :=
  filter (fun o => negb (String.eqb o OCUP_JUD)) (ocup_uf df uf_sel).

Definition anos_disponiveis (df : DataFrame) : list Z :=
  sorted Z.leb (unique Z.eqb (col ano_base df)).

(** What the user picked in the three widgets. *)
Record Entrada := mkEntrada {
  uf_sel : string;
  ocup_sel : string;
  anos_sel : list Z
}.

(** ** Filtered data (lines 143-146) *)

Definition isin (x : Z) (l : list Z) : bool := existsb (Z.eqb x) l.

Definition filtra_uf_anos (df : DataFrame) (e : Entrada) : DataFrame :=
  filter (fun r => String.eqb (uf r) (uf_sel e) && isin (ano_base r) (anos_sel e)) df.

Definition filtra_ocup (d : DataFrame) (o : string) : DataFrame :=
  filter (fun r => String.eqb (ocupacao_principal r) o) d.

Definition d_user (df : DataFrame) (e : Entrada) : DataFrame :=
  filtra_ocup (filtra_uf_anos df e) (ocup_sel e).

Definition d_jud (df : DataFrame) (e : Entrada) : DataFrame :=
  filtra_ocup (filtra_uf_anos df e) OCUP_JUD.

(** ** Series (lines 249-265) *)

Module Serie.
(** A row of [u], [j] and [s]. *)
Record t := mk {
  ano_base : Z;
  renda_media : float;
  pct_isento : float;
  aliq_paga : float;
  grupo : string
}.
End Serie.

Definition rotula (grupo : string) (d : DataFrame) : list Serie.t :=
  map (fun r => Serie.mk (ano_base r) (rend_total_por_contrib r)
                         (pct_isento r) (aliq_efetiva_paga r) grupo) d.

Definition chave (x : Serie.t) : Z * string := (Serie.ano_base x, Serie.grupo x).

Definition chave_leb (a b : Z * string) : bool :=
  (fst a <? fst b)%Z || ((fst a =? fst b)%Z && str_leb (snd a) (snd b)).

Definition chave_eqb (a b : Z * string) : bool :=
  (fst a =? fst b)%Z && String.eqb (snd a) (snd b).

(** [pd.concat([u, j]).sort_values(["ano_base", "grupo"])]. *)
Definition serie (df : DataFrame) (e : Entrada) : list Serie.t :=
  sorted (fun a b => chave_leb (chave a) (chave b))
         (rotula (ocup_sel e) (d_user df e) ++ rotula ROTULO_JUD (d_jud df e)).

(** ** Ratio pivot (lines 268-272) *)

(** int64 to float64, as numpy converts an integer column in a division. *)
Definition float_of_Z (z : Z) : float :=
  match z with
  | Z0 => 0%float
  | Zpos _ => of_uint63 (Uint63.of_Z z)
  | Zneg p => (- of_uint63 (Uint63.of_Z (Zpos p)))%float
  end.

(** The group mean of [groupby(...).agg("mean")]: NaN values are skipped;
    a group with no value left has mean NaN.  (pandas adds the values up
    with a compensated sum; the result is the same whenever the additions
    are exact, as with one row per year and group.) *)
Definition mean (xs : list float) : float :=
  let v := filter (fun x => negb (isna x)) xs in
  match v with
  | [] => nan
  | _ => (fold_left PrimFloat.add v 0 / float_of_Z (Z.of_nat (List.length v)))%float
  end.

(** [renda_media] of the series rows under one (year, group) key. *)
Definition do_grupo (s : list Serie.t) (k : Z * string) : list float :=
  map Serie.renda_media (filter (fun x => chave_eqb (chave x) k) s).

(** [data.groupby(["ano_base", "grupo"]).agg("mean")] followed by
    [agged.dropna(how="all")], as [pivot_table] does with its default
    [dropna=True]: one entry per key present, in key order, without the
    keys whose mean is NaN. *)
Definition agged (s : list Serie.t) : list ((Z * string) * float) :=
  filter (fun kv => negb (isna (snd kv)))
    (map (fun k => (k, mean (do_grupo s k)))
       (sorted chave_leb (unique chave_eqb (map chave s)))).

Definition celula (a : list ((Z * string) * float)) (y : Z) (g : string) : float :=
  match find (fun kv => chave_eqb (fst kv) (y, g)) a with
  | Some kv => snd kv
  | None => nan
  end.

Module Pivot.
(** The pivot frame, by column: the year column produced by
    [reset_index], [vezes_mais], and the other columns, one per group
    label. *)
Record t := mk {
  ano_base : list Z;
  colunas : list (string * list float);
  vezes_mais : list float
}.

(** [name in pivot.columns], before [vezes_mais] is added. *)
Definition tem_coluna (cols : list (string * list float)) (name : string) : bool :=
  String.eqb name "ano_base" || existsb (fun c => String.eqb (fst c) name) cols.

(** [pivot[name]] as the operand of a division. *)
Definition coluna (ano : list Z) (cols : list (string * list float))
           (name : string) : list float :=
  if String.eqb name "ano_base" then map float_of_Z ano
  else match find (fun c => String.eqb (fst c) name) cols with
       | Some c => snd c
       | None => []
       end.

(** The rows as (year, ratio) pairs, which is what the chart plots. *)
Definition linhas (p : t) : list (Z * float) := combine (ano_base p) (vezes_mais p).
End Pivot.

(** Element-wise division of two columns of the same frame. *)
Fixpoint divide_colunas (a b : list float) : list float :=
  match a, b with
  | x :: a', y :: b' => (x / y)%float :: divide_colunas a' b'
  | _, _ => []
  end.

(** [pivot_table(index="ano_base", columns="grupo", values="renda_media",
    aggfunc="mean")]: the index and the unstacked group columns. *)
Definition pivot_indice (s : list Serie.t) : list Z :=
  sorted Z.leb (unique Z.eqb (map (fun kv => fst (fst kv)) (agged s))).

Definition pivot_grupos (s : list Serie.t) : list string :=
  sorted str_leb (unique String.eqb (map (fun kv => snd (fst kv)) (agged s))).

Definition pivot_table (s : list Serie.t) : list Z * list (string * list float) :=
  let a := agged s in
  let idx := pivot_indice s in
  (idx, map (fun g => (g, map (fun y => celula a y g) idx)) (pivot_grupos s)).

(** [reset_index()] inserts the index as column [ano_base] and raises
    [ValueError] when a column of that name is already there; then lines
    269-272 set [vezes_mais], which replaces a group column of that name. *)
Definition pivot (s : list Serie.t) (ocup_sel : string) : string + Pivot.t :=
  let '(idx, cols) := pivot_table s in
  if existsb (fun c => String.eqb (fst c) "ano_base") cols
  then inl "cannot insert ano_base, already exists"%string
  else
    inr (Pivot.mk idx
           (filter (fun c => negb (String.eqb (fst c) "vezes_mais")) cols)
           (if Pivot.tem_coluna cols ROTULO_JUD && Pivot.tem_coluna cols ocup_sel
            then divide_colunas (Pivot.coluna idx cols ROTULO_JUD)
                                (Pivot.coluna idx cols ocup_sel)
            else map (fun _ => nan) idx)).

(** ** The script, one run *)

Definition CSV_PATH : string := "base_dashboard_irpf_2020_2023.csv".

(** Everything the run computes for display. *)
Record Saida := mkSaida {
  agg_user : Agg.t;
  agg_jud : Agg.t;
  s_ratio_renda : float;
  s_dif_aliq_paga_pp : float;
  s : list Serie.t;
  s_pivot : Pivot.t
}.

(** How a run ends: [st.stop()] after a message, an uncaught exception, or
    the bottom of the script. *)
Inductive Resultado :=
| Parou (mensagem : string)
| Levantou (erro : string)
| Pronto (saida : Saida).

Definition AVISO_USER : string :=
  "Não encontrei dados para essa ocupação/UF/anos selecionados.".

Definition aviso_jud (uf_sel : string) : string :=
  "Não encontrei dados do Judiciário para UF=" ++ uf_sel ++ " nos anos selecionados.".

(** Lines 143-272 on the table [df] (already restricted to [ANO_MIN]). *)
Definition consulta (df : DataFrame) (e : Entrada) : Resultado :=
  let du := d_user df e in
  let dj := d_jud df e in
  match du with
  | [] => Parou AVISO_USER
  | _ :: _ =>
    match dj with
    | [] => Parou (aviso_jud (uf_sel e))
    | _ :: _ =>
      let agg_user := agregados_ponderados du in
      let agg_jud := agregados_ponderados dj in
      let ratio := ratio_renda agg_user agg_jud in
      let dif := dif_aliq_paga_pp agg_user agg_jud in
      let s := serie df e in
      match pivot s (ocup_sel e) with
      | inl err => Levantou err
      | inr p => Pronto (mkSaida agg_user agg_jud ratio dif s p)
      end
    end
  end.

(** [load_data] under [st.cache_data]: the parsed table is kept between
    runs; a failed read raises and is not cached.  [arquivo] is what
    [pd.read_csv] and the column conversions give now: the table or the
    text of the exception. *)
Definition Cache := option DataFrame.

Definition load_data (arquivo : string + DataFrame) (cache : Cache)
  : (string + DataFrame) * Cache :=
  match cache with
  | Some df => (inr df, cache)
  | None =>
    match arquivo with
    | inr df => (inr df, Some df)
    | inl err => (inl err, None)
    end
  end.

(** One top-to-bottom run of the script. *)
Definition executar (arquivo : string + DataFrame) (cache : Cache) (e : Entrada)
  : Resultado * Cache :=
  match load_data arquivo cache with
  | (inl err, cache') =>
    (Parou ("Não consegui ler o arquivo " ++ CSV_PATH ++ ". Erro: " ++ err), cache')
  | (inr df, cache') =>
    (consulta (filter (fun r => (ANO_MIN <=? ano_base r)%Z) df) e, cache')
  end.

(** ** Sample data *)

(** A row whose three precomputed ratios are the quotients of its totals. *)
Definition linha (ano : Z) (u o : string) (contrib rend isento pago devido : float)
  : Row :=
  mkRow ano u o contrib rend isento pago devido
        (rend / contrib)%float (isento / rend)%float (pago / rend)%float.

Definition SP : string := "São Paulo".
Definition MEDICO : string := "Médico".

(** A subject over 2021-2022 and a reference over 2021-2023. *)
Definition df_ex : DataFrame :=
  [ linha 2021 SP MEDICO 100 1000000 200000 150000 160000;
    linha 2021 SP OCUP_JUD 10 500000 250000 50000 60000;
    linha 2022 SP MEDICO 200 2400000 300000 400000 410000;
    linha 2022 SP OCUP_JUD 10 600000 300000 60000 70000;
    linha 2023 SP OCUP_JUD 10 700000 300000 60000 70000 ].

Definition e_ex : Entrada := mkEntrada SP MEDICO [2021; 2022; 2023]%Z.

(** A subset whose contributor count sums to zero. *)
Definition sem_contribuintes : DataFrame :=
  [ linha 2021 SP MEDICO 0 0 0 0 0; linha 2022 SP MEDICO 0 0 0 0 0 ].

(** A subject covering 2021 and 2022 whose 2022 row has an empty
    [rend_total_por_contrib] cell, and a reference covering 2021 only. *)
Definition df_lacuna : DataFrame :=
  [ linha 2021 SP MEDICO 100 1000000 200000 150000 160000;
    linha 2021 SP OCUP_JUD 10 500000 250000 50000 60000;
    mkRow 2022 SP MEDICO 200 2400000 300000 400000 410000 nan 0.125 0.25 ].

Definition e_lacuna : Entrada := mkEntrada SP MEDICO [2021; 2022]%Z.

(** A subset whose first row has no [rend_total]. *)
Definition df_faltante : DataFrame :=
  [ mkRow 2021 SP MEDICO 100 nan 200000 150000 160000 nan nan nan;
    linha 2022 SP MEDICO 200 2400000 300000 400000 410000 ].

(** Unequal counts, equal income per contributor (10 on both rows). *)
Definition df_proporcional : DataFrame :=
  [ linha 2021 SP MEDICO 1 10 0 0 0; linha 2022 SP MEDICO 2 20 0 0 0 ].

(** Unequal counts, unequal income per contributor (10 and 30). *)
Definition df_desigual : DataFrame :=
  [ linha 2021 SP MEDICO 1 10 0 0 0; linha 2022 SP MEDICO 3 90 0 0 0 ].

(** One row: 3 contributors, income 10, exempt income 1. *)
Definition df_tercos : DataFrame := [ linha 2021 SP MEDICO 3 10 1 0 0 ].

(** A table in which an occupation is called like the reference label of
    the series. *)
Definition df_rotulo : DataFrame :=
  [ linha 2021 SP ROTULO_JUD 100 1000000 200000 150000 160000;
    linha 2021 SP OCUP_JUD 10 500000 250000 50000 60000;
    linha 2022 SP OCUP_JUD 10 600000 300000 60000 70000 ].

Definition e_rotulo : Entrada := mkEntrada SP ROTULO_JUD [2021; 2022]%Z.

(** ** Display helpers (lines 70-83) *)

Definition TRAVESSAO : string := "—".

(** [s.replace(old, new)] for one-character [old] and [new]: every
    occurrence is replaced. *)
Fixpoint replace_char (old new : ascii) (s : string) : string :=
  match s with
  | EmptyString => EmptyString
  | String c s' => String (if Ascii.eqb c old then new else c) (replace_char old new s')
  end.

(** [.replace(",", "X").replace(".", ",").replace("X", ".")] of line 73. *)
Definition troca_separadores (s : string) : string :=
  replace_char "X" "." (replace_char "." "," (replace_char "," "X" s)).

Section Formatacao.
(** Python's number formatting, which the script takes from the language:
    [milhar x] is [f"{x:,.0f}"] and [fixo casas x] is [f"{x:.{casas}f}"]. *)
Variable milhar : float -> string.
Variable fixo : nat -> float -> string.

Definition fmt_moeda (x : float) : string :=
  if isna x then TRAVESSAO
  else "R$ " ++ troca_separadores (milhar x).

Definition fmt_pct (x : float) (casas : nat) : string :=
  if isna x then TRAVESSAO
  else fixo casas (x * 100)%float ++ "%".

Definition fmt_x (x : float) (casas : nat) : string :=
  if isna x || PrimFloat.is_infinity x then TRAVESSAO
  else fixo casas x ++ "x".
End Formatacao.

(** ** Default region (line 125) *)

(** [l.index(x)]: the first position of [x]; [None] stands for the
    [ValueError] Python raises when [x] is not in the list. *)
Fixpoint index (x : string) (l : list string) : option nat :=
  match l with
  | [] => None
  | y :: l' => if String.eqb y x then Some 0
               else match index x l' with
                    | Some i => Some (S i)
                    | None => None
                    end
  end.

(** [ufs.index("São Paulo") if "São Paulo" in ufs else 0]. *)
Definition indice_uf_padrao (ufs : list string) : option nat :=
  if existsb (fun u => String.eqb u "São Paulo") ufs
  then index "São Paulo" ufs
  else Some 0.





(** ** Notions used in the statements *)

(** The order a comparison function decides. *)
Definition ord {A : Type} (leb : A -> A -> bool) (a b : A) : Prop := leb a b = true.


(** [g in table.columns] for the pivoted table of [s]. *)
Definition tem_grupo (s : list Serie.t) (g : string) : bool :=
  existsb (fun g' => String.eqb g' g) (pivot_grupos s).

(** The ratio the pivot holds for year [y] when the subject column is [o]. *)
Definition razao_do_ano (s : list Serie.t) (o : string) (y : Z) : float :=
  if tem_grupo s ROTULO_JUD && tem_grupo s o
  then (mean (do_grupo s (y, ROTULO_JUD)) / mean (do_grupo s (y, o)))%float
  else nan.

(** Two subsets with the same five summed columns, whatever their
    precomputed per-row ratios. *)
Definition mesmas_colunas_somadas (d1 d2 : DataFrame) : Prop :=
  col qtde_contribuintes d1 = col qtde_contribuintes d2 /\
  col rend_total d1 = col rend_total d2 /\
  col rend_isentos_e_nao_tributaveis d1 = col rend_isentos_e_nao_tributaveis d2 /\
  col imposto_pago d1 = col imposto_pago d2 /\
  col imposto_devido_total d1 = col imposto_devido_total d2.

(** The row with the missing values of its five summed columns set to 0. *)
Definition preenche (r : Row) : Row :=
  mkRow (ano_base r) (uf r) (ocupacao_principal r)
        (fillna0 (qtde_contribuintes r)) (fillna0 (rend_total r))
        (fillna0 (rend_isentos_e_nao_tributaveis r)) (fillna0 (imposto_pago r))
        (fillna0 (imposto_devido_total r))
        (rend_total_por_contrib r) (pct_isento r) (aliq_efetiva_paga r).

(** The unweighted arithmetic mean of the per-row income-per-contributor
    values of a subset (the quantity the spec contrasts the aggregator
    with; the script does not compute it). *)
Definition media_simples_por_linha (df_part : DataFrame) : float :=
  (Series_sum (col rend_total_por_contrib df_part)
   / float_of_Z (Z.of_nat (List.length df_part)))%float.

(** [qtde_contribuintes] is not the same on every row. *)
Definition contrib_varia (df_part : DataFrame) : Prop :=
  exists r1 r2, In r1 df_part /\ In r2 df_part /\
                (qtde_contribuintes r1 =? qtde_contribuintes r2)%float = false.

(** The mean of the per-row income per contributor over the rows of a
    subset that belong to year [y]. *)
Definition media_do_ano (d : DataFrame) (y : Z) : float :=
  mean (map rend_total_por_contrib (filter (fun r => (ano_base r =? y)%Z) d)).

(** The character the replacement chain of line 73 puts in place of [c]. *)
Definition troca (c : ascii) : ascii :=
  if Ascii.eqb c "," then "."%char
  else if Ascii.eqb c "." then ","%char
  else if Ascii.eqb c "X" then "."%char
  else c.

Fixpoint map_string (f : ascii -> ascii) (s : string) : string :=
  match s with
  | EmptyString => EmptyString
  | String c s' => String (f c) (map_string f s')
  end.

Fixpoint ocorre (c : ascii) (s : string) : bool :=
  match s with
  | EmptyString => false
  | String c' s' => Ascii.eqb c' c || ocorre c s'
  end.


(** * Facts about binary64 arithmetic *)

Section Binary64.

Lemma isna_nan : isna nan = true.
Proof. reflexivity. Qed.

Lemma Prim2SF_nan : Prim2SF nan = S754_nan.
Proof. reflexivity. Qed.

(** There is one NaN. *)
Lemma isna_true_iff (x : float) : isna x = true <-> x = nan.
Proof.
  split.
  - unfold isna, is_nan. rewrite FloatAxioms.eqb_spec. intros H.
    apply Prim2SF_inj. rewrite Prim2SF_nan.
    destruct (Prim2SF x) as [sx| sx| |sx mx ex]; simpl in H; try discriminate.
    + destruct sx; discriminate.
    + reflexivity.
    + unfold SFeqb, SFcompare in H.
      destruct sx; rewrite Z.compare_refl, Pos.compare_cont_refl in H; discriminate.
  - intros ->. reflexivity.
Qed.

Lemma div_nan_r (x : float) : (x / nan)%float = nan.
Proof.
  apply Prim2SF_inj. rewrite FloatAxioms.div_spec, Prim2SF_nan.
  unfold SF64div, SFdiv. destruct (Prim2SF x); reflexivity.
Qed.

Lemma div_nan_l (x : float) : (nan / x)%float = nan.
Proof.
  apply Prim2SF_inj. rewrite FloatAxioms.div_spec, Prim2SF_nan. reflexivity.
Qed.

(** A finite non-zero number has a mantissa and an exponent. *)
Lemma finito_nao_nulo (x : float) :
  PrimFloat.is_finite x = true -> PrimFloat.is_zero x = false ->
  exists sx mx ex, Prim2SF x = S754_finite sx mx ex.
Proof.
  unfold PrimFloat.is_finite, PrimFloat.is_zero, PrimFloat.is_infinity, PrimFloat.is_nan.
  rewrite !FloatAxioms.eqb_spec, FloatAxioms.abs_spec. intros Hf Hz.
  destruct (Prim2SF x) as [sx| sx| |sx mx ex].
  - exfalso. destruct sx; vm_compute in Hz; discriminate.
  - exfalso. apply negb_true_iff, orb_false_iff in Hf. destruct Hf as [_ Hf].
    vm_compute in Hf. discriminate.
  - exfalso. vm_compute in Hf. discriminate.
  - eauto.
Qed.

Lemma div_eucl_mul (a b : Z) : (0 < a)%Z -> Z.div_eucl (a * b) a = (b, 0%Z).
Proof.
  intros Ha.
  pose proof (Z.div_mul b a ltac:(lia)) as Hq.
  pose proof (Z.mod_mul b a ltac:(lia)) as Hr.
  rewrite Z.mul_comm in Hq, Hr. unfold Z.div, Z.modulo in Hq, Hr.
  destruct (Z.div_eucl (a * b) a). simpl in *. congruence.
Qed.

(** Division is correctly rounded, and the quotient of a number by
    itself is exactly one. *)
Lemma SFdiv_self (sx : bool) (mx : positive) (ex : Z) :
  SF64div (S754_finite sx mx ex) (S754_finite sx mx ex) = Prim2SF 1.
Proof.
  unfold SF64div, SFdiv, SFdiv_core_binary.
  replace (Zdigits2 (Z.pos mx) + ex - (Zdigits2 (Z.pos mx) + ex))%Z with 0%Z by lia.
  rewrite Z.sub_diag.
  change (Z.min (fexp prec emax 0) 0) with (-53)%Z.
  change (0 - -53)%Z with 53%Z.
  rewrite Z.shiftl_mul_pow2 by lia.
  rewrite div_eucl_mul by lia.
  unfold new_location, new_location_even, new_location_odd.
  destruct (IntDef.Z.even (Z.pos mx)), sx; reflexivity.
Qed.

Lemma div_self (x : float) :
  PrimFloat.is_finite x = true -> PrimFloat.is_zero x = false -> (x / x)%float = 1%float.
Proof.
  intros Hf Hz. destruct (finito_nao_nulo x Hf Hz) as (sx & mx & ex & Hx).
  apply Prim2SF_inj. rewrite FloatAxioms.div_spec, Hx. apply SFdiv_self.
Qed.

Lemma is_infinity_SF (x : float) :
  PrimFloat.is_infinity x = true -> exists sx, Prim2SF x = S754_infinity sx.
Proof.
  unfold PrimFloat.is_infinity. rewrite FloatAxioms.eqb_spec, FloatAxioms.abs_spec.
  change (Prim2SF infinity) with (S754_infinity false).
  destruct (Prim2SF x) as [sx| sx| |sx mx ex]; cbn; try discriminate.
  intros _. eauto.
Qed.

Lemma div_inf_inf (x : float) :
  PrimFloat.is_infinity x = true -> (x / x)%float = nan.
Proof.
  intros H. destruct (is_infinity_SF x H) as (sx & Hx).
  apply Prim2SF_inj. rewrite FloatAxioms.div_spec, Hx. reflexivity.
Qed.



End Binary64.

(** * Facts about sorting and distinct values *)

Section OrdenacaoFatos.
Context {A : Type}.
Variable leb : A -> A -> bool.

Lemma insere_perm (x : A) (l : list A) : Permutation (insere leb x l) (x :: l).
Proof.
  induction l as [|y l IH]; simpl.
  - apply Permutation_refl.
  - destruct (leb x y).
    + apply Permutation_refl.
    + eapply perm_trans; [apply perm_skip, IH | apply perm_swap].
Qed.

Lemma sorted_perm (l : list A) : Permutation (sorted leb l) l.
Proof.
  induction l as [|x l IH]; simpl.
  - constructor.
  - eapply perm_trans; [apply insere_perm | apply perm_skip, IH].
Qed.

Lemma In_sorted (x : A) (l : list A) : In x (sorted leb l) <-> In x l.
Proof.
  split; apply Permutation_in;
    [apply sorted_perm | apply Permutation_sym, sorted_perm].
Qed.

Lemma NoDup_sorted (l : list A) : NoDup l -> NoDup (sorted leb l).
Proof.
  apply Permutation_NoDup, Permutation_sym, sorted_perm.
Qed.

Lemma length_sorted (l : list A) : List.length (sorted leb l) = List.length l.
Proof. apply Permutation_length, sorted_perm. Qed.

Hypothesis leb_total : forall a b, leb a b = true \/ leb b a = true.

Lemma insere_Sorted (x : A) (l : list A) :
  Sorted (ord leb) l -> Sorted (ord leb) (insere leb x l).
Proof.
  induction 1 as [|y l Hs IH Hd]; simpl.
  - repeat constructor.
  - destruct (leb x y) eqn:E.
    + constructor; [constructor; assumption | constructor; exact E].
    + constructor; [exact IH |].
      assert (Hyx : ord leb y x) by (destruct (leb_total x y); [congruence | assumption]).
      destruct l as [|z l]; simpl.
      * constructor; exact Hyx.
      * destruct (leb x z); constructor; [exact Hyx | inversion Hd; assumption].
Qed.

Lemma sorted_Sorted (l : list A) : Sorted (ord leb) (sorted leb l).
Proof.
  induction l; simpl; [constructor | apply insere_Sorted; assumption].
Qed.
End OrdenacaoFatos.

Section Estabilidade.
Context {A : Type}.
Variables (leb : A -> A -> bool) (p : A -> bool).
(** [p] selects elements the order does not tell apart. *)
Hypothesis p_classe : forall x y, p x = true -> p y = true -> leb x y = true.

Lemma filter_insere (x : A) (l : list A) :
  filter p (insere leb x l) = filter p (x :: l).
Proof.
  induction l as [|y l IH]; [reflexivity|].
  simpl insere. destruct (leb x y) eqn:E; [reflexivity|].
  change (filter p (y :: insere leb x l))
    with (if p y then y :: filter p (insere leb x l) else filter p (insere leb x l)).
  rewrite IH. simpl.
  destruct (p x) eqn:Hx, (p y) eqn:Hy; try reflexivity.
  rewrite (p_classe x y Hx Hy) in E. discriminate.
Qed.

(** The sort is stable: the elements of one class keep their order. *)
Lemma filter_sorted (l : list A) : filter p (sorted leb l) = filter p l.
Proof.
  induction l as [|x l IH]; [reflexivity|].
  simpl sorted. rewrite filter_insere. simpl. rewrite IH. reflexivity.
Qed.
End Estabilidade.

Section Distintos.
Context {A : Type}.
Variable eqb : A -> A -> bool.
Hypothesis eqb_eq : forall a b, eqb a b = true <-> a = b.

Lemma In_unique (x : A) (l : list A) : In x (unique eqb l) <-> In x l.
Proof.
  induction l as [|a l IH]; simpl; [tauto|].
  rewrite filter_In, IH, negb_true_iff. split.
  - intros [H | [H _]]; auto.
  - intros [H | H]; [auto|].
    destruct (eqb a x) eqn:E; [left; apply eqb_eq; exact E | right; auto].
Qed.

Lemma NoDup_unique (l : list A) : NoDup (unique eqb l).
Proof.
  induction l as [|a l IH]; simpl; constructor.
  - rewrite filter_In. intros [_ H].
    assert (E : eqb a a = true) by (apply eqb_eq; reflexivity).
    rewrite E in H. discriminate.
  - apply NoDup_filter, IH.
Qed.
End Distintos.

(** ** The order of labels and keys *)

Lemma str_leb_iff (a b : string) :
  str_leb a b = true <-> a = b \/ String_as_OT.lt a b.
Proof.
  unfold str_leb, String.leb.
  destruct (String.compare a b) eqn:E.
  - apply String_as_OT.cmp_eq in E. tauto.
  - apply String_as_OT.cmp_lt in E. tauto.
  - split; [discriminate|]. intros [H | H].
    + apply String_as_OT.cmp_eq in H. unfold String_as_OT.cmp in H. congruence.
    + apply String_as_OT.cmp_lt in H. unfold String_as_OT.cmp in H. congruence.
Qed.

Lemma str_leb_trans (a b c : string) :
  str_leb a b = true -> str_leb b c = true -> str_leb a c = true.
Proof.
  rewrite !str_leb_iff. intros [-> | H1] [-> | H2]; auto.
  right. eapply String_as_OT.lt_trans; eassumption.
Qed.



Section OrdemTransitiva.
Context {A : Type}.
Variable leb : A -> A -> bool.
Hypothesis leb_total : forall a b, leb a b = true \/ leb b a = true.
Hypothesis leb_trans : forall a b c, leb a b = true -> leb b c = true -> leb a c = true.

Lemma sorted_StronglySorted (l : list A) : StronglySorted (ord leb) (sorted leb l).
Proof.
  apply Sorted_StronglySorted.
  - intros a b c. apply leb_trans.
  - apply sorted_Sorted. exact leb_total.
Qed.

Lemma StronglySorted_filter (f : A -> bool) (l : list A) :
  StronglySorted (ord leb) l -> StronglySorted (ord leb) (filter f l).
Proof.
  induction 1 as [|x l Hs IH Hx]; simpl; [constructor|].
  destruct (f x); [|exact IH].
  constructor; [exact IH|].
  apply Forall_forall. intros y Hy. apply filter_In in Hy.
  rewrite Forall_forall in Hx. apply Hx. tauto.
Qed.
End OrdemTransitiva.

(** * Facts about the series and the pivot *)

Lemma str_leb_refl (a : string) : str_leb a a = true.
Proof. destruct (String.leb_total a a); assumption. Qed.

Lemma chave_eqb_eq (a b : Z * string) : chave_eqb a b = true <-> a = b.
Proof.
  destruct a as [y g], b as [y' g']. unfold chave_eqb. simpl.
  rewrite andb_true_iff, Z.eqb_eq, String.eqb_eq. split.
  - intros [-> ->]. reflexivity.
  - intros H. inversion H. auto.
Qed.

Lemma chave_eqb_refl (a : Z * string) : chave_eqb a a = true.
Proof. apply chave_eqb_eq. reflexivity. Qed.

Lemma chave_leb_refl (a : Z * string) : chave_leb a a = true.
Proof.
  unfold chave_leb. rewrite Z.eqb_refl, str_leb_refl. apply orb_true_r.
Qed.


(** Sorting the series does not change what a (year, group) key selects. *)
Lemma do_grupo_sorted (l : list Serie.t) (k : Z * string) :
  do_grupo (sorted (fun a b => chave_leb (chave a) (chave b)) l) k = do_grupo l k.
Proof.
  unfold do_grupo. f_equal. apply filter_sorted.
  intros x y Hx Hy. apply chave_eqb_eq in Hx, Hy. rewrite Hx, Hy.
  apply chave_leb_refl.
Qed.

Lemma mean_nil : mean [] = nan.
Proof. reflexivity. Qed.

(** A defined mean has a defined value under it. *)
Lemma mean_definida (xs : list float) :
  isna (mean xs) = false -> exists x, In x xs /\ isna x = false.
Proof.
  unfold mean. destruct (filter (fun x => negb (isna x)) xs) as [|x v] eqn:E.
  - rewrite isna_nan. discriminate.
  - intros _. exists x.
    assert (H : In x (filter (fun x => negb (isna x)) xs)) by (rewrite E; left; reflexivity).
    apply filter_In in H. destruct H as [H1 H2]. apply negb_true_iff in H2. auto.
Qed.

Lemma mean_indefinida (xs : list float) :
  (forall x, In x xs -> isna x = true) -> mean xs = nan.
Proof.
  intros H. unfold mean.
  destruct (filter (fun x => negb (isna x)) xs) as [|x v] eqn:E; [reflexivity|].
  assert (Hx : In x (filter (fun x => negb (isna x)) xs)) by (rewrite E; left; reflexivity).
  apply filter_In in Hx. destruct Hx as [H1 H2]. rewrite (H x H1) in H2. discriminate.
Qed.

Lemma do_grupo_ausente (s : list Serie.t) (k : Z * string) :
  ~ In k (map chave s) -> do_grupo s k = [].
Proof.
  intros H. unfold do_grupo.
  induction s as [|x s IH]; [reflexivity|]. simpl.
  destruct (chave_eqb (chave x) k) eqn:E.
  - apply chave_eqb_eq in E. exfalso. apply H. left. exact E.
  - apply IH. intros Hin. apply H. right. exact Hin.
Qed.

Lemma In_agged (s : list Serie.t) (k : Z * string) (m : float) :
  In (k, m) (agged s) <->
  In k (map chave s) /\ m = mean (do_grupo s k) /\ isna m = false.
Proof.
  unfold agged. rewrite filter_In, in_map_iff. simpl. rewrite negb_true_iff. split.
  - intros [(k' & Hk & Hin) Hm]. inversion Hk; subst.
    rewrite In_sorted, (In_unique _ chave_eqb_eq) in Hin. auto.
  - intros (Hin & -> & Hm). split; [|exact Hm].
    exists k. split; [reflexivity|].
    rewrite In_sorted, (In_unique _ chave_eqb_eq). exact Hin.
Qed.

(** Looking a key up among keyed values. *)
Lemma find_chave {B : Type} (q : (Z * string) * B -> bool) (f : Z * string -> B)
      (ks : list (Z * string)) (k : Z * string) :
  find (fun kv => chave_eqb (fst kv) k) (filter q (map (fun k' => (k', f k')) ks))
  = if existsb (fun k' => chave_eqb k' k) ks && q (k, f k) then Some (k, f k) else None.
Proof.
  induction ks as [|k' ks IH]; [reflexivity|]. simpl.
  destruct (chave_eqb k' k) eqn:E.
  - apply chave_eqb_eq in E. subst k'. simpl.
    destruct (q (k, f k)) eqn:Q; simpl.
    + rewrite chave_eqb_refl. reflexivity.
    + rewrite IH, andb_false_r. reflexivity.
  - simpl. destruct (q (k', f k')); simpl; [rewrite E|]; exact IH.
Qed.

(** A cell of the pivot is the mean of its (year, group) key, NaN when
    the key has no defined value. *)
Lemma celula_agged (s : list Serie.t) (y : Z) (g : string) :
  celula (agged s) y g = mean (do_grupo s (y, g)).
Proof.
  unfold celula, agged. rewrite find_chave. simpl.
  destruct (existsb _ _) eqn:E; simpl.
  - destruct (isna (mean (do_grupo s (y, g)))) eqn:N; simpl; [|reflexivity].
    symmetry. apply isna_true_iff. exact N.
  - rewrite do_grupo_ausente; [reflexivity|].
    intros Hin. rewrite <- (In_unique _ chave_eqb_eq), <- (In_sorted chave_leb) in Hin.
    assert (existsb (fun k' => chave_eqb k' (y, g))
              (sorted chave_leb (unique chave_eqb (map chave s))) = true) as E'.
    { apply existsb_exists. exists (y, g). split; [exact Hin | apply chave_eqb_refl]. }
    rewrite E' in E. discriminate.
Qed.

Lemma In_pivot_indice (s : list Serie.t) (y : Z) :
  In y (pivot_indice s) <-> exists g, isna (mean (do_grupo s (y, g))) = false.
Proof.
  unfold pivot_indice. rewrite In_sorted, (In_unique _ Z.eqb_eq), in_map_iff. split.
  - intros ([[y' g] m] & Hy & Hin). simpl in Hy. subst y'.
    apply In_agged in Hin. destruct Hin as (_ & -> & Hm). eauto.
  - intros (g & Hm). exists ((y, g), mean (do_grupo s (y, g))). split; [reflexivity|].
    apply In_agged. repeat split; [|exact Hm].
    destruct (in_dec (fun a b => Bool.reflect_dec _ _ (iff_reflect _ _ (iff_sym (chave_eqb_eq a b))))
                (y, g) (map chave s)) as [Hin | Hnin]; [exact Hin|].
    rewrite (do_grupo_ausente s (y, g) Hnin), mean_nil, isna_nan in Hm. discriminate.
Qed.

Lemma In_pivot_grupos (s : list Serie.t) (g : string) :
  In g (pivot_grupos s) <-> exists y, isna (mean (do_grupo s (y, g))) = false.
Proof.
  unfold pivot_grupos. rewrite In_sorted, (In_unique _ String.eqb_eq), in_map_iff. split.
  - intros ([[y g'] m] & Hg & Hin). simpl in Hg. subst g'.
    apply In_agged in Hin. destruct Hin as (_ & -> & Hm). eauto.
  - intros (y & Hm). exists ((y, g), mean (do_grupo s (y, g))). split; [reflexivity|].
    apply In_agged. repeat split; [|exact Hm].
    destruct (in_dec (fun a b => Bool.reflect_dec _ _ (iff_reflect _ _ (iff_sym (chave_eqb_eq a b))))
                (y, g) (map chave s)) as [Hin | Hnin]; [exact Hin|].
    rewrite (do_grupo_ausente s (y, g) Hnin), mean_nil, isna_nan in Hm. discriminate.
Qed.

Lemma NoDup_pivot_indice (s : list Serie.t) : NoDup (pivot_indice s).
Proof. apply NoDup_sorted, (NoDup_unique _ Z.eqb_eq). Qed.

Lemma tem_grupo_true (s : list Serie.t) (g : string) :
  tem_grupo s g = true <-> In g (pivot_grupos s).
Proof.
  unfold tem_grupo. rewrite existsb_exists. split.
  - intros (g' & Hin & E). apply String.eqb_eq in E. subst. exact Hin.
  - intros H. exists g. split; [exact H | apply String.eqb_refl].
Qed.

Section Colunas.
Variable h : string -> list float.

Lemma existsb_colunas (gs : list string) (name : string) :
  existsb (fun c : string * list float => String.eqb (fst c) name)
          (map (fun g => (g, h g)) gs)
  = existsb (fun g => String.eqb g name) gs.
Proof.
  induction gs as [|g gs IH]; simpl; [reflexivity | rewrite IH; reflexivity].
Qed.

Lemma find_colunas (gs : list string) (name : string) :
  find (fun c : string * list float => String.eqb (fst c) name)
       (map (fun g => (g, h g)) gs)
  = if existsb (fun g => String.eqb g name) gs then Some (name, h name) else None.
Proof.
  induction gs as [|g gs IH]; simpl; [reflexivity|].
  destruct (String.eqb g name) eqn:E; simpl; [|exact IH].
  apply String.eqb_eq in E. subst. reflexivity.
Qed.
End Colunas.

Lemma divide_colunas_map {B : Type} (f g : B -> float) (l : list B) :
  divide_colunas (map f l) (map g l) = map (fun y => (f y / g y)%float) l.
Proof.
  induction l as [|y l IH]; simpl; [reflexivity | rewrite IH; reflexivity].
Qed.

Lemma combine_map {B C : Type} (f : B -> C) (l : list B) :
  combine l (map f l) = map (fun y => (y, f y)) l.
Proof.
  induction l as [|y l IH]; simpl; [reflexivity | rewrite IH; reflexivity].
Qed.

Lemma pivot_levanta (s : list Serie.t) (o : string) :
  tem_grupo s "ano_base" = true ->
  pivot s o = inl "cannot insert ano_base, already exists"%string.
Proof.
  intros H. unfold pivot, pivot_table.
  rewrite existsb_colunas. fold (tem_grupo s "ano_base"). rewrite H. reflexivity.
Qed.

Lemma pivot_pronto (s : list Serie.t) (o : string) :
  o <> "ano_base"%string -> tem_grupo s "ano_base" = false ->
  exists p, pivot s o = inr p /\
            Pivot.ano_base p = pivot_indice s /\
            Pivot.vezes_mais p = map (razao_do_ano s o) (pivot_indice s).
Proof.
  intros Ho H. unfold pivot, pivot_table.
  rewrite existsb_colunas. fold (tem_grupo s "ano_base"). rewrite H.
  eexists. split; [reflexivity|]. split; [reflexivity|].
  cbn [Pivot.vezes_mais]. unfold Pivot.tem_coluna, Pivot.coluna.
  rewrite !existsb_colunas, !find_colunas.
  apply String.eqb_neq in Ho. rewrite Ho.
  change (String.eqb ROTULO_JUD "ano_base") with false. cbn [orb].
  fold (tem_grupo s ROTULO_JUD) (tem_grupo s o).
  destruct (tem_grupo s ROTULO_JUD) eqn:EJ, (tem_grupo s o) eqn:EO; cbn [andb snd];
    try (apply map_ext; intros y; unfold razao_do_ano; rewrite EJ, EO; reflexivity).
  rewrite divide_colunas_map. apply map_ext. intros y.
  unfold razao_do_ano. rewrite EJ, EO, !celula_agged. reflexivity.
Qed.

Lemma In_linhas (p : Pivot.t) (s : list Serie.t) (o : string) (y : Z) (v : float) :
  Pivot.ano_base p = pivot_indice s ->
  Pivot.vezes_mais p = map (razao_do_ano s o) (pivot_indice s) ->
  In (y, v) (Pivot.linhas p) <-> In y (pivot_indice s) /\ v = razao_do_ano s o y.
Proof.
  intros Ha Hv. unfold Pivot.linhas. rewrite Ha, Hv, combine_map, in_map_iff. split.
  - intros (y' & E & Hin). inversion E; subst. auto.
  - intros [Hin ->]. exists y. auto.
Qed.

(** ** The series of a query *)

Lemma In_rotula (g : string) (d : DataFrame) (x : Serie.t) :
  In x (rotula g d) <->
  exists r, In r d /\
            x = Serie.mk (ano_base r) (rend_total_por_contrib r)
                         (pct_isento r) (aliq_efetiva_paga r) g.
Proof.
  unfold rotula. rewrite in_map_iff. split; intros (r & H1 & H2); exists r; auto.
Qed.

Lemma In_serie (df : DataFrame) (e : Entrada) (x : Serie.t) :
  In x (serie df e) <->
  In x (rotula (ocup_sel e) (d_user df e)) \/ In x (rotula ROTULO_JUD (d_jud df e)).
Proof. unfold serie. rewrite In_sorted, in_app_iff. reflexivity. Qed.

Lemma grupo_serie (df : DataFrame) (e : Entrada) (x : Serie.t) :
  In x (serie df e) -> Serie.grupo x = ocup_sel e \/ Serie.grupo x = ROTULO_JUD.
Proof.
  rewrite In_serie, !In_rotula. intros [(r & _ & ->) | (r & _ & ->)]; auto.
Qed.

Lemma In_do_grupo (s : list Serie.t) (k : Z * string) (v : float) :
  In v (do_grupo s k) <-> exists x, In x s /\ chave x = k /\ Serie.renda_media x = v.
Proof.
  unfold do_grupo. rewrite in_map_iff. split.
  - intros (x & E & Hin). apply filter_In in Hin. destruct Hin as [Hin Hk].
    apply chave_eqb_eq in Hk. eauto.
  - intros (x & Hin & Hk & E). exists x. split; [exact E|].
    apply filter_In. split; [exact Hin | apply chave_eqb_eq; exact Hk].
Qed.

Lemma grupos_do_pivot (df : DataFrame) (e : Entrada) (g : string) :
  In g (pivot_grupos (serie df e)) -> g = ocup_sel e \/ g = ROTULO_JUD.
Proof.
  rewrite In_pivot_grupos. intros (y & Hm).
  apply mean_definida in Hm. destruct Hm as (v & Hv & _).
  apply In_do_grupo in Hv. destruct Hv as (x & Hin & Hk & _).
  apply grupo_serie in Hin. unfold chave in Hk. inversion Hk; subst. exact Hin.
Qed.

Lemma sem_coluna_ano_base (df : DataFrame) (e : Entrada) :
  ocup_sel e <> "ano_base"%string -> tem_grupo (serie df e) "ano_base" = false.
Proof.
  intros Ho. destruct (tem_grupo (serie df e) "ano_base") eqn:E; [|reflexivity].
  apply tem_grupo_true, grupos_do_pivot in E. destruct E as [E | E].
  - exfalso. apply Ho. symmetry. exact E.
  - discriminate E.
Qed.

(** * Worked values *)

Example safe_div_6_3 : safe_div 6 (Some 3%float) = 2%float.
Proof. vm_compute. reflexivity. Qed.

Example d_user_ex : map ano_base (d_user df_ex e_ex) = [2021; 2022]%Z.
Proof. vm_compute. reflexivity. Qed.

Example ratio_renda_2021 :
  let e := mkEntrada SP MEDICO [2021]%Z in
  Agg.renda_media (agregados_ponderados (d_user df_ex e)) = 10000%float /\
  Agg.renda_media (agregados_ponderados (d_jud df_ex e)) = 50000%float /\
  ratio_renda (agregados_ponderados (d_user df_ex e))
              (agregados_ponderados (d_jud df_ex e)) = 5%float.
Proof. vm_compute. repeat split. Qed.

Example renda_media_ex :
  Agg.renda_media (agregados_ponderados (d_jud df_ex e_ex)) = 60000%float.
Proof. vm_compute. reflexivity. Qed.

(** * The weighted aggregator *)

Lemma safe_div_definido (a b : float) :
  (b =? 0)%float = false -> isna b = false -> safe_div a (Some b) = (a / b)%float.
Proof. intros H0 Hn. unfold safe_div. rewrite H0, Hn. reflexivity. Qed.

Lemma safe_div_indefinido (a b : float) :
  (b =? 0)%float = true \/ isna b = true -> safe_div a (Some b) = nan.
Proof.
  intros [H | H]; unfold safe_div; rewrite H; [|rewrite orb_true_r]; reflexivity.
Qed.

(** C1: for every non-empty subset the four summaries of the aggregator are
    ratios of column sums under the division policy of [safe_div] -
    sum(rend_total)/sum(qtde_contribuintes), sum(isentos)/sum(rend_total),
    sum(imposto_pago)/sum(rend_total), sum(imposto_devido_total)/sum(rend_total) -
    equal to the plain quotient whenever the summed denominator is neither
    zero nor NaN; and they do not look at the precomputed per-row ratios:
    subsets with the same five summed columns have the same aggregates. *)
Theorem C1_razoes_de_somas (df_part : DataFrame) :
  df_part <> [] ->
  let a := agregados_ponderados df_part in
  let tot_contrib := Series_sum (col qtde_contribuintes df_part) in
  let tot_rend := Series_sum (col rend_total df_part) in
  let tot_isento := Series_sum (col rend_isentos_e_nao_tributaveis df_part) in
  let tot_pago := Series_sum (col imposto_pago df_part) in
  let tot_devido := Series_sum (col imposto_devido_total df_part) in
  (Agg.renda_media a = safe_div tot_rend (Some tot_contrib) /\
   Agg.pct_isento a = safe_div tot_isento (Some tot_rend) /\
   Agg.aliq_paga a = safe_div tot_pago (Some tot_rend) /\
   Agg.aliq_devida a = safe_div tot_devido (Some tot_rend)) /\
  ((tot_contrib =? 0)%float = false -> isna tot_contrib = false ->
   Agg.renda_media a = (tot_rend / tot_contrib)%float) /\
  ((tot_rend =? 0)%float = false -> isna tot_rend = false ->
   Agg.pct_isento a = (tot_isento / tot_rend)%float /\
   Agg.aliq_paga a = (tot_pago / tot_rend)%float /\
   Agg.aliq_devida a = (tot_devido / tot_rend)%float) /\
  (forall df', mesmas_colunas_somadas df' df_part ->
               agregados_ponderados df' = a).
Proof.
  intros _. cbv zeta. split; [|split; [|split]].
  - repeat split.
  - intros H0 Hn. apply safe_div_definido; assumption.
  - intros H0 Hn. repeat split; apply safe_div_definido; assumption.
  - intros df' (H1 & H2 & H3 & H4 & H5).
    unfold agregados_ponderados. rewrite H1, H2, H3, H4, H5. reflexivity.
Qed.

Lemma C1_razoes_de_somas_witness :
  Agg.renda_media (agregados_ponderados (d_user df_ex e_ex))
  = (3400000 / 300)%float.
Proof.
  assert (Hne : d_user df_ex e_ex <> []) by (vm_compute; discriminate).
  destruct (C1_razoes_de_somas (d_user df_ex e_ex) Hne) as (_ & H & _).
  rewrite H; vm_compute; reflexivity.
Defined.

(** * The division policy *)

(** C2: a division whose denominator is [None], zero (of either sign) or
    NaN returns NaN - a value, which is not zero; so a subset whose
    contributor count sums to zero has an undefined average income, and the
    income ratio built on an undefined or zero subject average is undefined. *)
Theorem C2_denominador_indefinido :
  (forall a b,
      b = None \/ (exists x, b = Some x /\ ((x =? 0)%float = true \/ isna x = true)) ->
      safe_div a b = nan) /\
  (isna nan = true /\ (nan =? 0)%float = false) /\
  (forall df_part,
      (Series_sum (col qtde_contribuintes df_part) =? 0)%float = true ->
      Agg.renda_media (agregados_ponderados df_part) = nan) /\
  (forall agg_user agg_jud,
      isna (Agg.renda_media agg_user) = true \/
      (Agg.renda_media agg_user =? 0)%float = true ->
      ratio_renda agg_user agg_jud = nan) /\
  (forall d_user d_jud,
      (Series_sum (col qtde_contribuintes d_user) =? 0)%float = true ->
      ratio_renda (agregados_ponderados d_user) (agregados_ponderados d_jud) = nan).
Proof.
  assert (Hagg : forall df_part,
             (Series_sum (col qtde_contribuintes df_part) =? 0)%float = true ->
             Agg.renda_media (agregados_ponderados df_part) = nan).
  { intros df_part H. simpl. apply safe_div_indefinido. left. exact H. }
  split; [|split; [|split; [|split]]].
  - intros a b [-> | (x & -> & H)]; [reflexivity|].
    apply safe_div_indefinido. destruct H; auto.
  - split; reflexivity.
  - exact Hagg.
  - intros agg_user agg_jud H. apply safe_div_indefinido. destruct H; auto.
  - intros du dj H. apply safe_div_indefinido. right.
    rewrite (Hagg du H). reflexivity.
Qed.

Lemma C2_denominador_indefinido_witness :
  Agg.renda_media (agregados_ponderados sem_contribuintes) = nan /\
  ratio_renda (agregados_ponderados sem_contribuintes)
              (agregados_ponderados (d_jud df_ex e_ex)) = nan /\
  safe_div 5 None = nan.
Proof.
  destruct C2_denominador_indefinido as (H1 & _ & H3 & _ & H5).
  split; [apply H3; vm_compute; reflexivity|].
  split; [apply H5; vm_compute; reflexivity|].
  apply H1. left. reflexivity.
Defined.

(** * The filter stage *)

Lemma In_filtra (df : DataFrame) (e : Entrada) (o : string) (r : Row) :
  In r (filtra_ocup (filtra_uf_anos df e) o) <->
  In r df /\ uf r = uf_sel e /\ In (ano_base r) (anos_sel e) /\
  ocupacao_principal r = o.
Proof.
  unfold filtra_ocup, filtra_uf_anos, isin.
  rewrite !filter_In, andb_true_iff, !String.eqb_eq, existsb_exists. split.
  - intros [(Hin & Hu & (y & Hy & E)) Ho]. apply Z.eqb_eq in E. subst y. auto.
  - intros (Hin & Hu & Hy & Ho). repeat split; auto.
    exists (ano_base r). split; [exact Hy | apply Z.eqb_refl].
Qed.

Lemma avisos_distintos (u : string) : AVISO_USER <> aviso_jud u.
Proof. unfold AVISO_USER, aviso_jud. simpl. discriminate. Qed.

Lemma consulta_pronto (df : DataFrame) (e : Entrada) (out : Saida) :
  consulta df e = Pronto out ->
  d_user df e <> [] /\ d_jud df e <> [] /\
  agg_user out = agregados_ponderados (d_user df e) /\
  agg_jud out = agregados_ponderados (d_jud df e) /\
  s_ratio_renda out = ratio_renda (agg_user out) (agg_jud out) /\
  s_dif_aliq_paga_pp out = dif_aliq_paga_pp (agg_user out) (agg_jud out) /\
  s out = serie df e /\
  pivot (serie df e) (ocup_sel e) = inr (s_pivot out).
Proof.
  unfold consulta.
  destruct (d_user df e) as [|ru du]; [discriminate|].
  destruct (d_jud df e) as [|rj dj]; [discriminate|].
  destruct (pivot (serie df e) (ocup_sel e)) as [err|p]; [discriminate|].
  intros H. inversion H; subst; clear H. cbn.
  repeat (split; [first [discriminate | reflexivity]|]). reflexivity.
Qed.

(** C3: when the subject subset is empty the run stops with the subject
    message, when only the reference subset is empty it stops with the
    reference message (naming the region), the two messages differ, and a
    stopped run carries no aggregates; a run that gets past the two checks
    has both subsets non-empty, and the rows of each subset are exactly the
    rows of the table whose region equals the chosen one, whose year is in
    the chosen set and whose occupation is the respective label. *)
Theorem C3_subconjuntos_vazios (df : DataFrame) (e : Entrada) :
  (d_user df e = [] -> consulta df e = Parou AVISO_USER) /\
  (d_user df e <> [] -> d_jud df e = [] ->
   consulta df e = Parou (aviso_jud (uf_sel e))) /\
  AVISO_USER <> aviso_jud (uf_sel e) /\
  (d_user df e <> [] -> d_jud df e <> [] -> forall m, consulta df e <> Parou m) /\
  (forall out, consulta df e = Pronto out ->
               d_user df e <> [] /\ d_jud df e <> [] /\
               agg_user out = agregados_ponderados (d_user df e) /\
               agg_jud out = agregados_ponderados (d_jud df e)) /\
  (forall r, In r (d_user df e) <->
             In r df /\ uf r = uf_sel e /\ In (ano_base r) (anos_sel e) /\
             ocupacao_principal r = ocup_sel e) /\
  (forall r, In r (d_jud df e) <->
             In r df /\ uf r = uf_sel e /\ In (ano_base r) (anos_sel e) /\
             ocupacao_principal r = OCUP_JUD).
Proof.
  split; [|split; [|split; [|split; [|split; [|split]]]]].
  - intros H. unfold consulta. rewrite H. reflexivity.
  - intros Hu Hj. unfold consulta. rewrite Hj.
    destruct (d_user df e); [contradiction | reflexivity].
  - apply avisos_distintos.
  - intros Hu Hj m. unfold consulta.
    destruct (d_user df e); [contradiction|].
    destruct (d_jud df e); [contradiction|].
    destruct (pivot (serie df e) (ocup_sel e)); discriminate.
  - intros out H. apply consulta_pronto in H. tauto.
  - intros r. apply In_filtra.
  - intros r. apply In_filtra.
Qed.

Lemma C3_subconjuntos_vazios_witness :
  consulta df_ex (mkEntrada SP "Dentista" [2021]%Z) = Parou AVISO_USER /\
  consulta df_ex (mkEntrada SP MEDICO [2019]%Z) = Parou AVISO_USER /\
  (exists out, consulta df_ex e_ex = Pronto out /\
               agg_user out = agregados_ponderados (d_user df_ex e_ex)).
Proof.
  split; [apply (C3_subconjuntos_vazios df_ex (mkEntrada SP "Dentista" [2021]%Z));
          vm_compute; reflexivity|].
  split; [apply (C3_subconjuntos_vazios df_ex (mkEntrada SP MEDICO [2019]%Z));
          vm_compute; reflexivity|].
  destruct (consulta df_ex e_ex) as [m|err|out] eqn:E; try (vm_compute in E; discriminate).
  exists out. split; [reflexivity|].
  apply (C3_subconjuntos_vazios df_ex e_ex). exact E.
Defined.

(** * The comparator *)

(** C4: the income ratio is the reference average over the subject average,
    NaN when the subject average is NaN or zero; the rate difference is
    (reference paid rate - subject paid rate) x 100, NaN when either rate is
    NaN; and the aggregates a completed run reports are still the ones
    computed from the two subsets before the comparison. *)
Theorem C4_comparador (agg_u agg_j : Agg.t) :
  (isna (Agg.renda_media agg_u) = false ->
   (Agg.renda_media agg_u =? 0)%float = false ->
   ratio_renda agg_u agg_j = (Agg.renda_media agg_j / Agg.renda_media agg_u)%float) /\
  (isna (Agg.renda_media agg_u) = true \/ (Agg.renda_media agg_u =? 0)%float = true ->
   ratio_renda agg_u agg_j = nan) /\
  (isna (Agg.aliq_paga agg_j) = false -> isna (Agg.aliq_paga agg_u) = false ->
   dif_aliq_paga_pp agg_u agg_j
   = ((Agg.aliq_paga agg_j - Agg.aliq_paga agg_u) * 100)%float) /\
  (isna (Agg.aliq_paga agg_j) = true \/ isna (Agg.aliq_paga agg_u) = true ->
   dif_aliq_paga_pp agg_u agg_j = nan) /\
  (forall df e out,
      consulta df e = Pronto out ->
      s_ratio_renda out = ratio_renda (agg_user out) (agg_jud out) /\
      s_dif_aliq_paga_pp out = dif_aliq_paga_pp (agg_user out) (agg_jud out) /\
      agg_user out = agregados_ponderados (d_user df e) /\
      agg_jud out = agregados_ponderados (d_jud df e)).
Proof.
  split; [|split; [|split; [|split]]].
  - intros Hn H0. apply safe_div_definido; assumption.
  - intros H. apply safe_div_indefinido. destruct H; auto.
  - intros Hj Hu. unfold dif_aliq_paga_pp. rewrite Hj, Hu. reflexivity.
  - intros [H | H]; unfold dif_aliq_paga_pp; rewrite H;
      [|rewrite andb_false_r]; reflexivity.
  - intros df e out H. apply consulta_pronto in H. tauto.
Qed.

Lemma C4_comparador_witness :
  ratio_renda (agregados_ponderados (d_user df_ex e_ex))
              (agregados_ponderados (d_jud df_ex e_ex))
  = (60000 / (3400000 / 300))%float /\
  ratio_renda (agregados_ponderados sem_contribuintes)
              (agregados_ponderados (d_jud df_ex e_ex)) = nan.
Proof.
  split.
  - destruct (C4_comparador (agregados_ponderados (d_user df_ex e_ex))
                            (agregados_ponderados (d_jud df_ex e_ex))) as (H & _).
    rewrite H; vm_compute; reflexivity.
  - apply (C4_comparador (agregados_ponderados sem_contribuintes)).
    left. vm_compute. reflexivity.
Defined.

(** * The ratio pivot *)

Lemma consulta_completa (df : DataFrame) (e : Entrada) (p : Pivot.t) :
  d_user df e <> [] -> d_jud df e <> [] ->
  pivot (serie df e) (ocup_sel e) = inr p ->
  consulta df e
  = Pronto (mkSaida (agregados_ponderados (d_user df e))
                    (agregados_ponderados (d_jud df e))
                    (ratio_renda (agregados_ponderados (d_user df e))
                                 (agregados_ponderados (d_jud df e)))
                    (dif_aliq_paga_pp (agregados_ponderados (d_user df e))
                                      (agregados_ponderados (d_jud df e)))
                    (serie df e) p).
Proof.
  intros Hu Hj Hp. unfold consulta.
  destruct (d_user df e); [contradiction|].
  destruct (d_jud df e); [contradiction|].
  rewrite Hp. reflexivity.
Qed.

(** A (year, group) key all of whose values are NaN - none at all
    included - has an undefined mean. *)
Lemma grupo_sem_valor (s : list Serie.t) (y : Z) (g : string) :
  (forall x, In x s -> Serie.ano_base x = y -> Serie.grupo x = g ->
             isna (Serie.renda_media x) = true) ->
  mean (do_grupo s (y, g)) = nan.
Proof.
  intros H. apply mean_indefinida. intros v Hv.
  apply In_do_grupo in Hv. destruct Hv as (x & Hin & Hk & <-).
  unfold chave in Hk. inversion Hk. apply H; auto.
Qed.

Lemma razao_do_ano_indefinida (s : list Serie.t) (o : string) (y : Z) :
  mean (do_grupo s (y, o)) = nan \/ mean (do_grupo s (y, ROTULO_JUD)) = nan ->
  razao_do_ano s o y = nan.
Proof.
  intros H. unfold razao_do_ano.
  destruct (tem_grupo s ROTULO_JUD && tem_grupo s o); [|reflexivity].
  destruct H as [-> | ->]; [apply div_nan_r | apply div_nan_l].
Qed.

(** C5, as written, fails: 2022 is a year of the combined series (it has a
    subject row and no reference row), yet the pivot has no entry for it. *)
Lemma C5_ano_omitido :
  exists out,
    consulta df_lacuna e_lacuna = Pronto out /\
    map chave (s out) = [(2021, ROTULO_JUD); (2021, MEDICO); (2022, MEDICO)]%Z /\
    Pivot.linhas (s_pivot out) = [(2021%Z, 5%float)] /\
    In 2022%Z (map Serie.ano_base (s out)) /\
    ~ In 2022%Z (Pivot.ano_base (s_pivot out)).
Proof.
  eexists. split; [vm_compute; reflexivity|].
  split; [reflexivity|]. split; [reflexivity|].
  split; [right; right; left; reflexivity|].
  intros [H | []]. discriminate H.
Qed.

(** The spec's own example: subject over 2021-2022, reference over
    2021-2023, all values defined. *)
Example pivot_ex :
  exists out, consulta df_ex e_ex = Pronto out /\
              Pivot.linhas (s_pivot out) = [(2021%Z, 5%float); (2022%Z, 5%float); (2023%Z, nan)].
Proof. eexists. split; [vm_compute; reflexivity | reflexivity]. Qed.

(** An occupation called like the index column makes [reset_index] raise. *)
Example pivot_ano_base :
  consulta [ linha 2021 SP "ano_base" 100 1000000 200000 150000 160000;
             linha 2021 SP OCUP_JUD 10 500000 250000 50000 60000 ]
           (mkEntrada SP "ano_base" [2021]%Z)
  = Levantou "cannot insert ano_base, already exists".
Proof. vm_compute. reflexivity. Qed.

(** C5 (amended): when the subject label is not [ano_base], a query with
    both subsets non-empty runs to the end; its pivot has exactly one entry
    per year in which some group of the series has a defined mean
    [renda_media] - each such year is a year of the series with a defined
    value, and years with none are left out - and the entry of a year in
    which the subject label or the reference label has no defined value
    (in particular no row) is NaN. *)
Theorem C5_pivot_por_ano (df : DataFrame) (e : Entrada) :
  ocup_sel e <> "ano_base"%string ->
  d_user df e <> [] -> d_jud df e <> [] ->
  exists out,
    consulta df e = Pronto out /\
    NoDup (Pivot.ano_base (s_pivot out)) /\
    List.length (Pivot.vezes_mais (s_pivot out))
    = List.length (Pivot.ano_base (s_pivot out)) /\
    (forall y, In y (Pivot.ano_base (s_pivot out)) <->
               exists g, isna (mean (do_grupo (s out) (y, g))) = false) /\
    (forall y, In y (Pivot.ano_base (s_pivot out)) ->
               exists x, In x (s out) /\ Serie.ano_base x = y /\
                         isna (Serie.renda_media x) = false) /\
    (forall y v,
        In (y, v) (Pivot.linhas (s_pivot out)) ->
        (forall x, In x (s out) -> Serie.ano_base x = y ->
                   Serie.grupo x = ocup_sel e ->
                   isna (Serie.renda_media x) = true) \/
        (forall x, In x (s out) -> Serie.ano_base x = y ->
                   Serie.grupo x = ROTULO_JUD ->
                   isna (Serie.renda_media x) = true) ->
        isna v = true).
Proof.
  intros Ho Hu Hj.
  destruct (pivot_pronto (serie df e) (ocup_sel e) Ho (sem_coluna_ano_base df e Ho))
    as (p & Hp & Ha & Hv).
  eexists. split; [apply (consulta_completa df e p Hu Hj Hp)|]. cbn [s_pivot s].
  split; [rewrite Ha; apply NoDup_pivot_indice|].
  split; [rewrite Ha, Hv; apply length_map|].
  split; [intros y; rewrite Ha; apply In_pivot_indice|].
  split.
  - intros y Hy. rewrite Ha in Hy. apply In_pivot_indice in Hy.
    destruct Hy as (g & Hm). apply mean_definida in Hm.
    destruct Hm as (v & Hin & Hn). apply In_do_grupo in Hin.
    destruct Hin as (x & Hx & Hk & <-). exists x. unfold chave in Hk.
    inversion Hk. auto.
  - intros y v Hin H. apply (In_linhas p _ _ y v Ha Hv) in Hin.
    destruct Hin as [_ ->]. apply isna_true_iff, razao_do_ano_indefinida.
    destruct H as [H | H]; [left | right]; apply grupo_sem_valor; exact H.
Qed.

Lemma C5_pivot_por_ano_witness :
  exists out, consulta df_ex e_ex = Pronto out /\
              NoDup (Pivot.ano_base (s_pivot out)).
Proof.
  assert (H1 : ocup_sel e_ex <> "ano_base"%string) by (vm_compute; discriminate).
  assert (H2 : d_user df_ex e_ex <> []) by (vm_compute; discriminate).
  assert (H3 : d_jud df_ex e_ex <> []) by (vm_compute; discriminate).
  destruct (C5_pivot_por_ano df_ex e_ex H1 H2 H3) as (out & H & Hn & _).
  exists out. split; assumption.
Defined.

(** * Missing values in the summed columns *)

Lemma fillna0_idem (x : float) : fillna0 (fillna0 x) = fillna0 x.
Proof.
  unfold fillna0. destruct (isna x) eqn:E; [reflexivity | rewrite E; reflexivity].
Qed.

Lemma Series_sum_fillna0 (xs : list float) :
  Series_sum xs = Series_sum (map fillna0 xs).
Proof.
  unfold Series_sum. generalize 0%float as acc.
  induction xs as [|x xs IH]; intros acc; simpl; [reflexivity|].
  rewrite fillna0_idem. apply IH.
Qed.

Lemma Series_sum_tudo_faltante (xs : list float) :
  (forall x, In x xs -> isna x = true) -> Series_sum xs = 0%float.
Proof.
  unfold Series_sum. induction xs as [|x xs IH]; intros H; simpl; [reflexivity|].
  unfold fillna0 at 2. rewrite (H x (or_introl eq_refl)).
  change (0 + 0)%float with 0%float. apply IH. intros y Hy. apply H. right. exact Hy.
Qed.

Lemma Series_sum_preenche (f : Row -> float) (d : DataFrame) :
  (forall r, f (preenche r) = fillna0 (f r)) ->
  Series_sum (col f (map preenche d)) = Series_sum (col f d).
Proof.
  intros H. unfold col. rewrite map_map, (Series_sum_fillna0 (map f d)), map_map.
  f_equal. apply map_ext. exact H.
Qed.

(** C6, as written, fails: a row with a missing [rend_total] leaves the
    summed income defined - the missing value counts as zero - and the
    ratios built on it are ordinary numbers. *)
Lemma C6_faltante_vira_zero :
  (exists r, In r df_faltante /\ isna (rend_total r) = true) /\
  d_user df_faltante (mkEntrada SP MEDICO [2021; 2022]%Z) = df_faltante /\
  Agg.tot_rend (agregados_ponderados df_faltante) = 2400000%float /\
  isna (Agg.tot_rend (agregados_ponderados df_faltante)) = false /\
  Agg.renda_media (agregados_ponderados df_faltante) = 8000%float.
Proof.
  split; [eexists; split; [left; reflexivity | reflexivity]|].
  repeat split; vm_compute; reflexivity.
Qed.

(** C6 (amended): the column sums skip missing values, that is, count them
    as zero: the aggregates of a subset are those of the subset with every
    missing value of the five summed columns replaced by 0, a column sum
    equals the sum of the column so filled, and a column with nothing but
    missing values sums to 0. *)
Theorem C6_somas_ignoram_faltantes (df_part : DataFrame) :
  agregados_ponderados df_part = agregados_ponderados (map preenche df_part) /\
  (forall f : Row -> float,
      Series_sum (col f df_part) = Series_sum (map fillna0 (col f df_part))) /\
  (forall f : Row -> float,
      (forall r, In r df_part -> isna (f r) = true) ->
      Series_sum (col f df_part) = 0%float).
Proof.
  split; [|split].
  - unfold agregados_ponderados.
    rewrite !Series_sum_preenche by (intros r; reflexivity). reflexivity.
  - intros f. apply Series_sum_fillna0.
  - intros f H. apply Series_sum_tudo_faltante. intros x Hx.
    unfold col in Hx. apply in_map_iff in Hx. destruct Hx as (r & <- & Hr).
    apply H. exact Hr.
Qed.

Lemma C6_somas_ignoram_faltantes_witness :
  Series_sum (col rend_total_por_contrib sem_contribuintes) = 0%float.
Proof.
  apply (C6_somas_ignoram_faltantes sem_contribuintes).
  intros r [<- | [<- | []]]; vm_compute; reflexivity.
Defined.

(** * Weighted against unweighted *)

(** C7, as written, fails: the counts vary (1 and 2 contributors) and the
    weighted average equals the unweighted mean of the per-row values. *)
Lemma C7_medias_coincidem :
  d_user df_proporcional (mkEntrada SP MEDICO [2021; 2022]%Z) = df_proporcional /\
  contrib_varia df_proporcional /\
  Agg.renda_media (agregados_ponderados df_proporcional) = 10%float /\
  media_simples_por_linha df_proporcional = 10%float.
Proof.
  split; [vm_compute; reflexivity|]. split.
  - eexists. eexists. split; [left; reflexivity|].
    split; [right; left; reflexivity|]. vm_compute. reflexivity.
  - split; vm_compute; reflexivity.
Qed.

(** C7 (amended): the average income of the aggregator is the sum of
    [rend_total] over the sum of [qtde_contribuintes] whatever the rows;
    with varying counts it can differ from the unweighted mean of the
    per-row values (25 against 20 on rows of 1 and 3 contributors earning 10
    and 90), and it can coincide with it (rows of 1 and 2 contributors
    earning 10 and 20). *)
Theorem C7_media_ponderada :
  (forall df_part,
      Agg.renda_media (agregados_ponderados df_part)
      = safe_div (Series_sum (col rend_total df_part))
                 (Some (Series_sum (col qtde_contribuintes df_part)))) /\
  (contrib_varia df_desigual /\
   Agg.renda_media (agregados_ponderados df_desigual) = 25%float /\
   media_simples_por_linha df_desigual = 20%float) /\
  (contrib_varia df_proporcional /\
   Agg.renda_media (agregados_ponderados df_proporcional)
   = media_simples_por_linha df_proporcional).
Proof.
  split; [reflexivity|]. split; (split; [|vm_compute; repeat split]).
  - eexists. eexists. split; [left; reflexivity|].
    split; [right; left; reflexivity|]. vm_compute. reflexivity.
  - eexists. eexists. split; [left; reflexivity|].
    split; [right; left; reflexivity|]. vm_compute. reflexivity.
Qed.

(** * The average exempt amount *)

(** C8: the average exempt amount is the product of the weighted average
    income and the weighted exempt share when both are defined, and NaN
    when either is not; it is not the quotient of the exempt sum by the
    contributor sum, from which it differs on the one-row subset
    [df_tercos]. *)
Theorem C8_isento_medio (df_part : DataFrame) :
  df_part <> [] ->
  let a := agregados_ponderados df_part in
  (Agg.renda_media a
   = safe_div (Series_sum (col rend_total df_part))
              (Some (Series_sum (col qtde_contribuintes df_part))) /\
   Agg.pct_isento a
   = safe_div (Series_sum (col rend_isentos_e_nao_tributaveis df_part))
              (Some (Series_sum (col rend_total df_part)))) /\
  (isna (Agg.renda_media a) = false -> isna (Agg.pct_isento a) = false ->
   Agg.isento_medio a = (Agg.renda_media a * Agg.pct_isento a)%float) /\
  (isna (Agg.renda_media a) = true \/ isna (Agg.pct_isento a) = true ->
   Agg.isento_medio a = nan) /\
  (let b := agregados_ponderados df_tercos in
   Agg.isento_medio b = (Agg.renda_media b * Agg.pct_isento b)%float /\
   (Agg.isento_medio b =? Agg.tot_isento b / Agg.tot_contrib b)%float = false).
Proof.
  intros _. cbv zeta. split; [split; reflexivity|]. split; [|split].
  - intros H1 H2. cbn [Agg.isento_medio agregados_ponderados].
    cbn [Agg.renda_media Agg.pct_isento agregados_ponderados] in H1, H2.
    rewrite H1, H2. reflexivity.
  - intros H. cbn [Agg.isento_medio agregados_ponderados].
    cbn [Agg.renda_media Agg.pct_isento agregados_ponderados] in H.
    destruct H as [H | H]; rewrite H; [|rewrite andb_false_r]; reflexivity.
  - split; vm_compute; reflexivity.
Qed.

Lemma C8_isento_medio_witness :
  Agg.isento_medio (agregados_ponderados (d_jud df_ex e_ex))
  = (60000 * (850000 / 1800000))%float.
Proof.
  assert (Hne : d_jud df_ex e_ex <> []) by (vm_compute; discriminate).
  destruct (C8_isento_medio (d_jud df_ex e_ex) Hne) as (_ & H & _).
  rewrite H; vm_compute; reflexivity.
Defined.

(** * Re-running a query, and the order of the rows *)



Example executar_ex :
  fst (executar (inr df_ex) None e_ex) = consulta df_ex e_ex /\
  snd (executar (inr df_ex) None e_ex) = Some df_ex.
Proof. split; vm_compute; reflexivity. Qed.
















(** * The label of the reference rows *)

Example pivot_rotulo :
  In ROTULO_JUD (ocup_uf_user df_rotulo SP) /\
  exists out, consulta df_rotulo e_rotulo = Pronto out /\
              Pivot.colunas (s_pivot out) = [(ROTULO_JUD, [30000%float; 60000%float])] /\
              Pivot.linhas (s_pivot out) = [(2021%Z, 1%float); (2022%Z, 1%float)].
Proof.
  split; [vm_compute; left; reflexivity|].
  eexists. split; [vm_compute; reflexivity|]. split; reflexivity.
Qed.







(** * Further properties of the script *)

(** ** The sidebar *)

Lemma In_ocup_uf (df : DataFrame) (u o : string) :
  In o (ocup_uf df u) <-> exists r, In r df /\ uf r = u /\ ocupacao_principal r = o.
Proof.
  unfold ocup_uf, col. rewrite In_sorted, (In_unique _ String.eqb_eq), in_map_iff.
  split.
  - intros (r & Ho & Hr). apply filter_In in Hr. destruct Hr as [Hr Hu].
    apply String.eqb_eq in Hu. eauto.
  - intros (r & Hr & Hu & Ho). exists r. split; [exact Ho|].
    apply filter_In. split; [exact Hr | apply String.eqb_eq; exact Hu].
Qed.

Lemma In_ocup_uf_user (df : DataFrame) (u o : string) :
  In o (ocup_uf_user df u) <->
  o <> OCUP_JUD /\ exists r, In r df /\ uf r = u /\ ocupacao_principal r = o.
Proof.
  unfold ocup_uf_user. rewrite filter_In, In_ocup_uf, negb_true_iff, String.eqb_neq.
  tauto.
Qed.

(** X1: the occupations offered to the user for a region are exactly the
    occupations of the rows of that region other than the reference
    occupation; the list has no repetition and is in ascending order. *)
Theorem X1_ocupacoes_oferecidas (df : DataFrame) (u : string) :
  (forall o, In o (ocup_uf_user df u) <->
             o <> OCUP_JUD /\
             exists r, In r df /\ uf r = u /\ ocupacao_principal r = o) /\
  NoDup (ocup_uf_user df u) /\
  StronglySorted (ord str_leb) (ocup_uf_user df u).
Proof.
  split; [intros o; apply In_ocup_uf_user|]. split.
  - unfold ocup_uf_user, ocup_uf. apply NoDup_filter, NoDup_sorted.
    apply (NoDup_unique _ String.eqb_eq).
  - unfold ocup_uf_user, ocup_uf.
    apply StronglySorted_filter, sorted_StronglySorted.
    + apply String.leb_total.
    + apply str_leb_trans.
Qed.

Lemma index_presente (x : string) (l : list string) :
  In x l -> exists i, index x l = Some i /\ nth_error l i = Some x /\
                      i < List.length l.
Proof.
  induction l as [|y l IH]; [intros []|]. intros H. simpl.
  destruct (String.eqb y x) eqn:E.
  - apply String.eqb_eq in E. subst. exists 0. simpl. repeat split. lia.
  - destruct H as [H | H]; [subst; rewrite String.eqb_refl in E; discriminate|].
    destruct (IH H) as (i & Hi & Hn & Hl). rewrite Hi.
    exists (S i). simpl. repeat split; [exact Hn | lia].
Qed.

(** X2: the default position of the region selector never fails and is
    always a position of the list when the list is not empty: it is a
    position of [São Paulo] when that region is listed, and the first
    position otherwise. *)
Theorem X2_indice_uf_padrao (l : list string) :
  l <> [] ->
  exists i, indice_uf_padrao l = Some i /\ i < List.length l /\
            (In "São Paulo"%string l -> nth_error l i = Some "São Paulo"%string) /\
            (~ In "São Paulo"%string l -> i = 0).
Proof.
  intros Hl. unfold indice_uf_padrao.
  destruct (existsb (fun u => String.eqb u "São Paulo") l) eqn:E.
  - apply existsb_exists in E. destruct E as (u & Hu & Eu).
    apply String.eqb_eq in Eu. subst u.
    destruct (index_presente _ _ Hu) as (i & Hi & Hn & Hlt).
    exists i. repeat split; auto. intros H. contradiction.
  - exists 0. repeat split.
    + destruct l; [contradiction | simpl; lia].
    + intros H. exfalso.
      assert (existsb (fun u => String.eqb u "São Paulo") l = true) as E'.
      { apply existsb_exists. exists "São Paulo"%string.
        split; [exact H | reflexivity]. }
      rewrite E' in E. discriminate.
Qed.

Lemma X2_indice_uf_padrao_witness :
  exists i, indice_uf_padrao (ufs df_ex) = Some i /\ i < List.length (ufs df_ex).
Proof.
  assert (H : ufs df_ex <> []) by (vm_compute; discriminate).
  destruct (X2_indice_uf_padrao (ufs df_ex) H) as (i & Hi & Hl & _).
  exists i. split; assumption.
Defined.

Lemma In_anos_disponiveis (df : DataFrame) (y : Z) :
  In y (anos_disponiveis df) <-> exists r, In r df /\ ano_base r = y.
Proof.
  unfold anos_disponiveis, col. rewrite In_sorted, (In_unique _ Z.eqb_eq), in_map_iff.
  split; intros (r & H1 & H2); exists r; auto.
Qed.

(** X3: when the subject occupation is one of those offered for the chosen
    region and every available year is selected (the default of the year
    selector), the subject subset is not empty, so the run does not stop
    with the subject warning. *)
Theorem X3_todos_os_anos (df : DataFrame) (e : Entrada) :
  In (ocup_sel e) (ocup_uf_user df (uf_sel e)) ->
  incl (anos_disponiveis df) (anos_sel e) ->
  d_user df e <> [] /\ consulta df e <> Parou AVISO_USER.
Proof.
  intros Ho Ha. apply In_ocup_uf_user in Ho. destruct Ho as (_ & r & Hr & Hu & Hoc).
  assert (Hin : In r (d_user df e)).
  { apply In_filtra. repeat split; auto.
    apply Ha, In_anos_disponiveis. eauto. }
  assert (Hne : d_user df e <> []) by (intros E; rewrite E in Hin; exact Hin).
  split; [exact Hne|]. unfold consulta.
  destruct (d_user df e); [contradiction|].
  destruct (d_jud df e).
  - intros H. apply (avisos_distintos (uf_sel e)). congruence.
  - destruct (pivot (serie df e) (ocup_sel e)); discriminate.
Qed.

Lemma X3_todos_os_anos_witness :
  d_user df_ex e_ex <> [] /\ consulta df_ex e_ex <> Parou AVISO_USER.
Proof.
  apply X3_todos_os_anos.
  - vm_compute. left. reflexivity.
  - intros y Hy. vm_compute in Hy. vm_compute. exact Hy.
Defined.

(** X4: with no year selected the run always stops with the subject
    warning, whatever the table, the region and the occupation. *)
Theorem X4_nenhum_ano (df : DataFrame) (e : Entrada) :
  anos_sel e = [] -> consulta df e = Parou AVISO_USER.
Proof.
  intros Ha.
  assert (Hd : filtra_uf_anos df e = []).
  { unfold filtra_uf_anos, isin. rewrite Ha. simpl.
    induction df as [|r df IH]; [reflexivity|]. simpl.
    rewrite andb_false_r. exact IH. }
  unfold consulta, d_user. rewrite Hd. reflexivity.
Qed.

Lemma X4_nenhum_ano_witness :
  consulta df_ex (mkEntrada SP MEDICO []) = Parou AVISO_USER.
Proof. apply X4_nenhum_ano. reflexivity. Defined.

(** X5: for an offered subject occupation the two subsets share no row:
    the script never compares the reference group with itself. *)
Theorem X5_subconjuntos_disjuntos (df : DataFrame) (e : Entrada) (r : Row) :
  In (ocup_sel e) (ocup_uf_user df (uf_sel e)) ->
  In r (d_user df e) -> ~ In r (d_jud df e).
Proof.
  intros Ho Hu Hj. apply In_ocup_uf_user in Ho. destruct Ho as [Hne _].
  apply In_filtra in Hu, Hj.
  destruct Hu as (_ & _ & _ & H1). destruct Hj as (_ & _ & _ & H2).
  apply Hne. congruence.
Qed.

Lemma X5_subconjuntos_disjuntos_witness :
  In (linha 2021 SP MEDICO 100 1000000 200000 150000 160000) (d_user df_ex e_ex) /\
  ~ In (linha 2021 SP MEDICO 100 1000000 200000 150000 160000) (d_jud df_ex e_ex).
Proof.
  assert (H1 : In (ocup_sel e_ex) (ocup_uf_user df_ex (uf_sel e_ex)))
    by (vm_compute; left; reflexivity).
  assert (H2 : In (linha 2021 SP MEDICO 100 1000000 200000 150000 160000)
                  (d_user df_ex e_ex)) by (vm_compute; left; reflexivity).
  split; [exact H2 | exact (X5_subconjuntos_disjuntos df_ex e_ex _ H1 H2)].
Defined.

(** ** Years of a result *)

Lemma serie_origem (df : DataFrame) (e : Entrada) (x : Serie.t) :
  In x (serie df e) ->
  exists r, In r df /\ ano_base r = Serie.ano_base x /\
            In (ano_base r) (anos_sel e).
Proof.
  rewrite In_serie, !In_rotula. unfold d_user, d_jud.
  intros [(r & Hr & ->) | (r & Hr & ->)]; apply In_filtra in Hr;
    exists r; simpl; tauto.
Qed.

Lemma pivot_inr_indice (s : list Serie.t) (o : string) (p : Pivot.t) :
  pivot s o = inr p -> Pivot.ano_base p = pivot_indice s.
Proof.
  unfold pivot, pivot_table.
  destruct (existsb _ _); [discriminate|]. intros H. inversion H. reflexivity.
Qed.

Lemma pivot_indice_origem (s : list Serie.t) (y : Z) :
  In y (pivot_indice s) -> exists x, In x s /\ Serie.ano_base x = y.
Proof.
  intros H. apply In_pivot_indice in H. destruct H as (g & Hm).
  apply mean_definida in Hm. destruct Hm as (v & Hv & _).
  apply In_do_grupo in Hv. destruct Hv as (x & Hx & Hk & _).
  exists x. unfold chave in Hk. inversion Hk. auto.
Qed.

(** X6: in a run that reaches the end, every year of the series and every
    year of the pivot is one of the selected years and is not below
    [ANO_MIN], whatever the file or the cache held: rows of 2020 never reach
    a result. *)
Theorem X6_anos_do_resultado (arquivo : string + DataFrame) (cache : Cache)
        (e : Entrada) (out : Saida) :
  fst (executar arquivo cache e) = Pronto out ->
  (forall x, In x (s out) ->
             (ANO_MIN <= Serie.ano_base x)%Z /\ In (Serie.ano_base x) (anos_sel e)) /\
  (forall y, In y (Pivot.ano_base (s_pivot out)) ->
             (ANO_MIN <= y)%Z /\ In y (anos_sel e)).
Proof.
  unfold executar. destruct (load_data arquivo cache) as [[err|df] c]; [discriminate|].
  cbn [fst]. intros H. apply consulta_pronto in H.
  destruct H as (_ & _ & _ & _ & _ & _ & Hs & Hp).
  assert (Hx : forall x, In x (s out) ->
                         (ANO_MIN <= Serie.ano_base x)%Z /\
                         In (Serie.ano_base x) (anos_sel e)).
  { intros x Hin. rewrite Hs in Hin. apply serie_origem in Hin.
    destruct Hin as (r & Hr & <- & Ha). split; [|exact Ha].
    apply filter_In in Hr. destruct Hr as [_ Hr]. apply Z.leb_le. exact Hr. }
  split; [exact Hx|].
  intros y Hy. rewrite (pivot_inr_indice _ _ _ Hp) in Hy.
  apply pivot_indice_origem in Hy. destruct Hy as (x & Hin & <-).
  apply Hx. rewrite Hs. exact Hin.
Qed.

(** A file that still holds rows of 2020. *)
Example executar_2020 :
  exists out,
    fst (executar (inr (linha 2020 SP MEDICO 5 5 0 0 0 ::
                        linha 2020 SP OCUP_JUD 5 5 0 0 0 :: df_ex)) None
                  (mkEntrada SP MEDICO [2020; 2021]%Z)) = Pronto out /\
    Pivot.ano_base (s_pivot out) = [2021%Z].
Proof. eexists. split; [vm_compute; reflexivity | reflexivity]. Qed.

Lemma X6_anos_do_resultado_witness :
  exists out, fst (executar (inr df_ex) None e_ex) = Pronto out /\
              forall y, In y (Pivot.ano_base (s_pivot out)) -> (ANO_MIN <= y)%Z.
Proof.
  destruct (fst (executar (inr df_ex) None e_ex)) as [m|err|out] eqn:E;
    try (vm_compute in E; discriminate).
  exists out. split; [reflexivity|].
  intros y Hy. apply (X6_anos_do_resultado (inr df_ex) None e_ex out E). exact Hy.
Defined.

(** ** Shape of the pivot *)

Lemma divide_colunas_length (a b : list float) (n : nat) :
  List.length a = n -> List.length b = n -> List.length (divide_colunas a b) = n.
Proof.
  revert b n. induction a as [|x a IH]; intros [|y b] n Ha Hb;
    simpl in *; try congruence.
  destruct n as [|n]; [discriminate|]. f_equal. apply IH; congruence.
Qed.

Lemma coluna_length (idx : list Z) (cols : list (string * list float)) (name : string) :
  (forall c, In c cols -> List.length (snd c) = List.length idx) ->
  Pivot.tem_coluna cols name = true ->
  List.length (Pivot.coluna idx cols name) = List.length idx.
Proof.
  intros Hc Ht. unfold Pivot.tem_coluna in Ht. unfold Pivot.coluna.
  destruct (String.eqb name "ano_base"); [apply length_map|].
  simpl in Ht.
  destruct (find (fun c => String.eqb (fst c) name) cols) as [c|] eqn:F.
  - apply find_some in F. apply Hc. tauto.
  - apply existsb_exists in Ht. destruct Ht as (c & Hin & E).
    rewrite (find_none _ _ F c Hin) in E. discriminate.
Qed.

Lemma crescente (l : list Z) :
  StronglySorted (ord Z.leb) l -> NoDup l -> StronglySorted Z.lt l.
Proof.
  induction 1 as [|x l Hs IH Hx]; intros Hn; constructor.
  - apply IH. inversion Hn. assumption.
  - inversion Hn as [|? ? Hnin _]. subst.
    rewrite Forall_forall in *. intros y Hy.
    pose proof (Hx y Hy) as Hle. unfold ord in Hle. apply Z.leb_le in Hle.
    assert (x <> y) by (intros ->; contradiction). lia.
Qed.

(** X7: whenever the pivot is built, its years are strictly increasing,
    every group column and the ratio column have one value per year, and
    every group column is named after a group that occurs in the series. *)
Theorem X7_pivot_bem_formado (s : list Serie.t) (o : string) (p : Pivot.t) :
  pivot s o = inr p ->
  StronglySorted Z.lt (Pivot.ano_base p) /\
  List.length (Pivot.vezes_mais p) = List.length (Pivot.ano_base p) /\
  (forall c, In c (Pivot.colunas p) ->
             List.length (snd c) = List.length (Pivot.ano_base p) /\
             exists x, In x s /\ Serie.grupo x = fst c).
Proof.
  unfold pivot, pivot_table.
  set (idx := pivot_indice s).
  set (cols := map (fun g => (g, map (fun y => celula (agged s) y g) idx)) (pivot_grupos s)).
  assert (Hc : forall c, In c cols -> List.length (snd c) = List.length idx).
  { intros c Hin. apply in_map_iff in Hin. destruct Hin as (g & <- & _).
    apply length_map. }
  destruct (existsb _ cols); [discriminate|].
  intros H. inversion H; subst p; clear H.
  cbn [Pivot.ano_base Pivot.vezes_mais Pivot.colunas].
  split; [|split].
  - apply crescente; [|apply NoDup_pivot_indice].
    apply sorted_StronglySorted; intros; unfold ord in *;
      rewrite ?Z.leb_le in *; lia.
  - destruct (Pivot.tem_coluna cols ROTULO_JUD) eqn:TJ;
      [destruct (Pivot.tem_coluna cols o) eqn:TO|]; cbn [andb];
      try apply length_map.
    apply divide_colunas_length; apply coluna_length; assumption.
  - intros c Hin. apply filter_In in Hin. destruct Hin as [Hin _].
    split; [apply Hc; exact Hin|].
    apply in_map_iff in Hin. destruct Hin as (g & <- & Hg). cbn [fst].
    apply In_pivot_grupos in Hg. destruct Hg as (y & Hm).
    apply mean_definida in Hm. destruct Hm as (v & Hv & _).
    apply In_do_grupo in Hv. destruct Hv as (x & Hx & Hk & _).
    exists x. unfold chave in Hk. inversion Hk. auto.
Qed.

Lemma X7_pivot_bem_formado_witness :
  exists p, pivot (serie df_ex e_ex) MEDICO = inr p /\
            StronglySorted Z.lt (Pivot.ano_base p).
Proof.
  destruct (pivot (serie df_ex e_ex) MEDICO) as [err|p] eqn:E;
    [vm_compute in E; discriminate|].
  exists p. split; [reflexivity|].
  apply (X7_pivot_bem_formado (serie df_ex e_ex) MEDICO p E).
Defined.

(** ** The pivot against the two subsets *)

Lemma do_grupo_app (a b : list Serie.t) (k : Z * string) :
  do_grupo (a ++ b) k = do_grupo a k ++ do_grupo b k.
Proof. unfold do_grupo. rewrite filter_app, map_app. reflexivity. Qed.

Lemma do_grupo_rotula (g : string) (d : DataFrame) (y : Z) :
  do_grupo (rotula g d) (y, g)
  = map rend_total_por_contrib (filter (fun r => (ano_base r =? y)%Z) d).
Proof.
  induction d as [|r d IH]; [reflexivity|].
  unfold do_grupo, rotula, chave_eqb, chave in *. simpl in *.
  rewrite String.eqb_refl, andb_true_r.
  destruct (ano_base r =? y)%Z; simpl; rewrite IH; reflexivity.
Qed.

Lemma do_grupo_outro_rotulo (g g' : string) (d : DataFrame) (y : Z) :
  g' <> g -> do_grupo (rotula g' d) (y, g) = [].
Proof.
  intros Hne. apply String.eqb_neq in Hne.
  induction d as [|r d IH]; [reflexivity|].
  unfold do_grupo, rotula, chave_eqb, chave in *. simpl in *.
  rewrite Hne, andb_false_r. exact IH.
Qed.

Lemma sem_grupo_media_indefinida (s : list Serie.t) (g : string) (y : Z) :
  tem_grupo s g = false -> mean (do_grupo s (y, g)) = nan.
Proof.
  intros H. apply isna_true_iff.
  destruct (isna (mean (do_grupo s (y, g)))) eqn:E; [reflexivity|].
  assert (Ht : tem_grupo s g = true) by (apply tem_grupo_true, In_pivot_grupos; eauto).
  rewrite Ht in H. discriminate.
Qed.

Lemma linha_do_pivot (df : DataFrame) (e : Entrada) (out : Saida)
      (y : Z) (v : float) :
  ocup_sel e <> "ano_base"%string -> ocup_sel e <> ROTULO_JUD ->
  consulta df e = Pronto out ->
  In (y, v) (Pivot.linhas (s_pivot out)) ->
  v = (media_do_ano (d_jud df e) y / media_do_ano (d_user df e) y)%float.
Proof.
  intros Hab HJ Hc Hin. apply consulta_pronto in Hc.
  destruct Hc as (_ & _ & _ & _ & _ & _ & _ & Hp).
  destruct (pivot_pronto (serie df e) (ocup_sel e) Hab (sem_coluna_ano_base df e Hab))
    as (p & Hp' & Ha & Hv).
  rewrite Hp in Hp'. inversion Hp'; subst p; clear Hp'.
  apply (In_linhas _ _ _ y v Ha Hv) in Hin. destruct Hin as [_ ->].
  assert (HmJ : mean (do_grupo (serie df e) (y, ROTULO_JUD))
                = media_do_ano (d_jud df e) y).
  { unfold serie, media_do_ano.
    rewrite do_grupo_sorted, do_grupo_app, do_grupo_rotula.
    rewrite (do_grupo_outro_rotulo ROTULO_JUD (ocup_sel e) _ y HJ). reflexivity. }
  assert (HmU : mean (do_grupo (serie df e) (y, ocup_sel e))
                = media_do_ano (d_user df e) y).
  { unfold serie, media_do_ano.
    rewrite do_grupo_sorted, do_grupo_app, do_grupo_rotula.
    rewrite (do_grupo_outro_rotulo (ocup_sel e) ROTULO_JUD _ y)
      by (intros E; apply HJ; symmetry; exact E).
    rewrite app_nil_r. reflexivity. }
  unfold razao_do_ano. rewrite <- HmJ, <- HmU.
  destruct (tem_grupo (serie df e) ROTULO_JUD) eqn:TJ.
  - destruct (tem_grupo (serie df e) (ocup_sel e)) eqn:TO; [reflexivity|].
    cbn [andb]. rewrite (sem_grupo_media_indefinida _ _ y TO), div_nan_r. reflexivity.
  - cbn [andb]. rewrite (sem_grupo_media_indefinida _ _ y TJ), div_nan_l. reflexivity.
Qed.

(** X8: for a subject label other than [Judiciário] and [ano_base], the
    ratio the pivot holds for a year is the mean per-row income per
    contributor of the reference rows of that year divided by that of the
    subject rows of that year (means over the defined values, NaN when there
    is none). *)
Theorem X8_razao_por_ano (df : DataFrame) (e : Entrada) (out : Saida)
        (y : Z) (v : float) :
  ocup_sel e <> "ano_base"%string -> ocup_sel e <> ROTULO_JUD ->
  consulta df e = Pronto out ->
  In (y, v) (Pivot.linhas (s_pivot out)) ->
  v = (media_do_ano (d_jud df e) y / media_do_ano (d_user df e) y)%float.
Proof. apply linha_do_pivot. Qed.

Lemma X8_razao_por_ano_witness :
  exists out, consulta df_ex e_ex = Pronto out /\
              In (2022%Z, (media_do_ano (d_jud df_ex e_ex) 2022
                           / media_do_ano (d_user df_ex e_ex) 2022)%float)
                 (Pivot.linhas (s_pivot out)).
Proof.
  destruct (consulta df_ex e_ex) as [m|err|out] eqn:E;
    try (vm_compute in E; discriminate).
  exists out. split; [reflexivity|].
  assert (H1 : ocup_sel e_ex <> "ano_base"%string) by (vm_compute; discriminate).
  assert (H2 : ocup_sel e_ex <> ROTULO_JUD) by (vm_compute; discriminate).
  assert (Hin : In (2022%Z, 5%float) (Pivot.linhas (s_pivot out))).
  { vm_compute in E. inversion E; subst out. right. left. reflexivity. }
  rewrite <- (X8_razao_por_ano df_ex e_ex out 2022 5 H1 H2 E Hin). exact Hin.
Defined.

(** ** A ratio of equals, and an undefined numerator *)

Lemma safe_div_consigo (x : float) :
  safe_div x (Some x)
  = if PrimFloat.is_finite x && negb (PrimFloat.is_zero x) then 1%float else nan.
Proof.
  unfold safe_div. change (x =? 0)%float with (PrimFloat.is_zero x).
  destruct (PrimFloat.is_zero x) eqn:Z; [rewrite andb_false_r; reflexivity|].
  cbn [orb negb]. rewrite andb_true_r.
  destruct (PrimFloat.is_finite x) eqn:F.
  - assert (N : isna x = false).
    { unfold PrimFloat.is_finite in F. apply negb_true_iff, orb_false_iff in F. tauto. }
    rewrite N. apply div_self; assumption.
  - destruct (isna x) eqn:N; [reflexivity|].
    apply div_inf_inf. unfold PrimFloat.is_finite in F.
    apply negb_false_iff, orb_true_iff in F. unfold isna in N.
    destruct F as [F | F]; [congruence | exact F].
Qed.

(** X9: the income ratio of a group against itself is exactly 1 when its
    average income is a finite non-zero number, and NaN in every other case
    (zero, infinite or undefined average); it is never any other value. *)
Theorem X9_razao_consigo (a : Agg.t) :
  ratio_renda a a
  = if PrimFloat.is_finite (Agg.renda_media a)
       && negb (PrimFloat.is_zero (Agg.renda_media a))
    then 1%float else nan.
Proof. unfold ratio_renda. apply safe_div_consigo. Qed.

Lemma safe_div_numerador_nan (b : option float) : safe_div nan b = nan.
Proof.
  unfold safe_div. destruct b as [x|]; [|reflexivity].
  destruct ((x =? 0)%float || isna x); [reflexivity | apply div_nan_l].
Qed.

(** X10: an undefined numerator makes the quotient undefined whatever the
    denominator; so the income ratio is NaN as soon as the reference
    average is NaN, also for a sound subject average. *)
Theorem X10_numerador_indefinido (a : float) (b : option float)
        (agg_u agg_j : Agg.t) :
  (isna a = true -> safe_div a b = nan) /\
  (isna (Agg.renda_media agg_j) = true -> ratio_renda agg_u agg_j = nan).
Proof.
  split.
  - intros H. apply isna_true_iff in H. subst a. apply safe_div_numerador_nan.
  - intros H. apply isna_true_iff in H. unfold ratio_renda. rewrite H.
    apply safe_div_numerador_nan.
Qed.

Lemma X10_numerador_indefinido_witness :
  ratio_renda (agregados_ponderados (d_user df_ex e_ex))
              (agregados_ponderados sem_contribuintes) = nan.
Proof.
  apply (X10_numerador_indefinido nan None). vm_compute. reflexivity.
Defined.

(** ** What the cards show *)

(** X11: when the contributor count of the subject subset sums to zero,
    the card of the subject's average income and the headline ratio both
    show a dash, whatever the reference subset and the number format. *)
Theorem X11_cartoes_sem_valor (milhar : float -> string) (fixo : nat -> float -> string)
        (casas : nat) (d_u d_j : DataFrame) :
  (Series_sum (col qtde_contribuintes d_u) =? 0)%float = true ->
  fmt_moeda milhar (Agg.renda_media (agregados_ponderados d_u)) = TRAVESSAO /\
  fmt_x fixo (ratio_renda (agregados_ponderados d_u) (agregados_ponderados d_j)) casas
  = TRAVESSAO.
Proof.
  intros H.
  assert (Hm : Agg.renda_media (agregados_ponderados d_u) = nan).
  { cbn [Agg.renda_media agregados_ponderados]. apply safe_div_indefinido. auto. }
  split.
  - rewrite Hm. reflexivity.
  - unfold ratio_renda. rewrite Hm.
    rewrite (safe_div_indefinido _ nan) by (right; reflexivity). reflexivity.
Qed.

Lemma X11_cartoes_sem_valor_witness :
  fmt_x (fun _ _ => "5.3"%string)
        (ratio_renda (agregados_ponderados sem_contribuintes)
                     (agregados_ponderados (d_jud df_ex e_ex))) 1
  = TRAVESSAO.
Proof.
  apply (X11_cartoes_sem_valor (fun _ => "0"%string)). vm_compute. reflexivity.
Defined.

Lemma troca_cadeia (c : ascii) :
  (let c1 := if Ascii.eqb c "," then "X"%char else c in
   let c2 := if Ascii.eqb c1 "." then ","%char else c1 in
   if Ascii.eqb c2 "X" then "."%char else c2) = troca c.
Proof.
  unfold troca. cbv zeta.
  destruct (Ascii.eqb c ",") eqn:E1; [reflexivity|].
  destruct (Ascii.eqb c ".") eqn:E2; [reflexivity|].
  destruct (Ascii.eqb c "X") eqn:E3; reflexivity.
Qed.

Lemma troca_troca (c : ascii) : Ascii.eqb c "X" = false -> troca (troca c) = c.
Proof.
  intros HX. unfold troca at 2.
  destruct (Ascii.eqb c ",") eqn:E1; [apply Ascii.eqb_eq in E1; subst; reflexivity|].
  destruct (Ascii.eqb c ".") eqn:E2; [apply Ascii.eqb_eq in E2; subst; reflexivity|].
  rewrite HX. unfold troca. rewrite E1, E2, HX. reflexivity.
Qed.

Lemma troca_separadores_map (s : string) : troca_separadores s = map_string troca s.
Proof.
  unfold troca_separadores. induction s as [|c s IH]; [reflexivity|].
  cbn [replace_char map_string]. rewrite IH. f_equal. apply troca_cadeia.
Qed.

(** X12: the replacement chain of [fmt_moeda] swaps the two separators:
    every comma becomes a dot and every dot a comma (an [X] also becomes a
    dot), the other characters and the length are kept; on a text without
    [X] applying it twice gives the text back; and for a number that is not
    NaN [fmt_moeda] is [R$ ] followed by the formatted number so swapped. *)
Theorem X12_troca_separadores (s : string) :
  troca_separadores s = map_string troca s /\
  String.length (troca_separadores s) = String.length s /\
  (ocorre "X" s = false -> troca_separadores (troca_separadores s) = s) /\
  (forall milhar x, isna x = false ->
                    fmt_moeda milhar x
                    = ("R$ " ++ map_string troca (milhar x))%string).
Proof.
  split; [apply troca_separadores_map|]. split; [|split].
  - rewrite troca_separadores_map. induction s as [|c s IH]; simpl; congruence.
  - rewrite !troca_separadores_map. induction s as [|c s IH]; [reflexivity|].
    cbn [ocorre map_string]. intros H. apply orb_false_iff in H.
    destruct H as [Hc Hs]. rewrite (troca_troca c Hc), (IH Hs). reflexivity.
  - intros milhar x Hx. unfold fmt_moeda. rewrite Hx, troca_separadores_map.
    reflexivity.
Qed.

Lemma X12_troca_separadores_witness :
  troca_separadores (troca_separadores "1,234,567.89") = "1,234,567.89"%string /\
  troca_separadores "1,234,567.89" = "1.234.567,89"%string.
Proof.
  split.
  - apply (X12_troca_separadores "1,234,567.89"). reflexivity.
  - reflexivity.
Defined.

(** ** No income at all *)

(** X14: when the total income of a subset sums to zero - as for a subset
    with no row, or with nothing but missing incomes - the exempt share,
    both effective rates and the average exempt amount are NaN. *)
Theorem X14_renda_total_nula (df_part : DataFrame) :
  (Series_sum (col rend_total df_part) =? 0)%float = true ->
  Agg.pct_isento (agregados_ponderados df_part) = nan /\
  Agg.aliq_paga (agregados_ponderados df_part) = nan /\
  Agg.aliq_devida (agregados_ponderados df_part) = nan /\
  Agg.isento_medio (agregados_ponderados df_part) = nan.
Proof.
  intros H.
  assert (Hd : forall a, safe_div a (Some (Series_sum (col rend_total df_part))) = nan)
    by (intros a; apply safe_div_indefinido; auto).
  cbn [Agg.pct_isento Agg.aliq_paga Agg.aliq_devida Agg.isento_medio
       agregados_ponderados].
  rewrite !Hd. repeat split.
  rewrite isna_nan. cbn [negb andb]. rewrite andb_false_r. reflexivity.
Qed.

Lemma X14_renda_total_nula_witness :
  Agg.isento_medio (agregados_ponderados []) = nan /\
  Agg.aliq_paga (agregados_ponderados
                   [mkRow 2021 SP MEDICO 10 nan nan 5 5 nan nan nan]) = nan.
Proof.
  split.
  - apply (X14_renda_total_nula []). reflexivity.
  - apply (X14_renda_total_nula [mkRow 2021 SP MEDICO 10 nan nan 5 5 nan nan nan]).
    vm_compute. reflexivity.
Defined.

(** ** The other selectors *)

(** X15: the regions and the years offered are exactly those that occur in
    the table, each once, regions in ascending order of their names and
    years in strictly increasing order. *)
Theorem X15_regioes_e_anos (df : DataFrame) :
  (forall u, In u (ufs df) <-> exists r, In r df /\ uf r = u) /\
  NoDup (ufs df) /\ StronglySorted (ord str_leb) (ufs df) /\
  (forall y, In y (anos_disponiveis df) <-> exists r, In r df /\ ano_base r = y) /\
  StronglySorted Z.lt (anos_disponiveis df).
Proof.
  split; [|split; [|split; [|split]]].
  - intros u. unfold ufs, col.
    rewrite In_sorted, (In_unique _ String.eqb_eq), in_map_iff.
    split; intros (r & H1 & H2); exists r; auto.
  - apply NoDup_sorted, (NoDup_unique _ String.eqb_eq).
  - apply sorted_StronglySorted; [apply String.leb_total | apply str_leb_trans].
  - apply In_anos_disponiveis.
  - apply crescente.
    + apply sorted_StronglySorted; intros; rewrite ?Z.leb_le in *; lia.
    + apply NoDup_sorted, (NoDup_unique _ Z.eqb_eq).
Qed.

(** ** One row, and a group against itself *)

Lemma add_0_finito (x : float) (sx : bool) (mx : positive) (ex : Z) :
  Prim2SF x = S754_finite sx mx ex -> (0 + x)%float = x.
Proof.
  intros Hx. apply Prim2SF_inj. rewrite FloatAxioms.add_spec, Hx. reflexivity.
Qed.

Lemma Series_sum_um (x : float) :
  PrimFloat.is_finite x = true -> PrimFloat.is_zero x = false ->
  Series_sum [x] = x.
Proof.
  intros Hf Hz. destruct (finito_nao_nulo x Hf Hz) as (sx & mx & ex & Hx).
  assert (N : isna x = false).
  { unfold PrimFloat.is_finite in Hf. apply negb_true_iff, orb_false_iff in Hf. tauto. }
  unfold Series_sum, fillna0. simpl. rewrite N. eapply add_0_finito. exact Hx.
Qed.

(** X16: on a subset of one row whose contributor count and total income
    are finite non-zero numbers, the totals are the row's own values and the
    average income is the row's income divided by its contributor count. *)
Theorem X16_uma_linha (r : Row) :
  PrimFloat.is_finite (qtde_contribuintes r) = true ->
  PrimFloat.is_zero (qtde_contribuintes r) = false ->
  PrimFloat.is_finite (rend_total r) = true ->
  PrimFloat.is_zero (rend_total r) = false ->
  Agg.tot_contrib (agregados_ponderados [r]) = qtde_contribuintes r /\
  Agg.tot_rend (agregados_ponderados [r]) = rend_total r /\
  Agg.renda_media (agregados_ponderados [r])
  = (rend_total r / qtde_contribuintes r)%float.
Proof.
  intros Fc Zc Ft Zt.
  cbn [Agg.tot_contrib Agg.tot_rend Agg.renda_media agregados_ponderados col map].
  rewrite (Series_sum_um _ Fc Zc), (Series_sum_um _ Ft Zt).
  repeat split. apply safe_div_definido; [exact Zc|].
  unfold PrimFloat.is_finite in Fc. apply negb_true_iff, orb_false_iff in Fc. tauto.
Qed.

Lemma X16_uma_linha_witness :
  Agg.renda_media
    (agregados_ponderados [linha 2021 SP MEDICO 100 1000000 200000 150000 160000])
  = (1000000 / 100)%float.
Proof.
  apply (X16_uma_linha (linha 2021 SP MEDICO 100 1000000 200000 150000 160000));
    vm_compute; reflexivity.
Defined.

Lemma finito_casos (x : float) :
  PrimFloat.is_finite x = true ->
  (exists sx, Prim2SF x = S754_zero sx) \/
  (exists sx mx ex, Prim2SF x = S754_finite sx mx ex).
Proof.
  unfold PrimFloat.is_finite, PrimFloat.is_infinity, PrimFloat.is_nan.
  rewrite !FloatAxioms.eqb_spec, FloatAxioms.abs_spec. intros Hf.
  destruct (Prim2SF x) as [sx| sx| |sx mx ex]; eauto.
  - exfalso. apply negb_true_iff, orb_false_iff in Hf. destruct Hf as [_ Hf].
    vm_compute in Hf. discriminate.
  - exfalso. vm_compute in Hf. discriminate.
Qed.

Lemma sub_consigo (x : float) :
  PrimFloat.is_finite x = true -> (x - x)%float = 0%float.
Proof.
  intros Hf. apply Prim2SF_inj. rewrite FloatAxioms.sub_spec.
  destruct (finito_casos x Hf) as [(sx & Hx) | (sx & mx & ex & Hx)]; rewrite Hx.
  - destruct sx; reflexivity.
  - unfold SF64sub, SFsub. rewrite Z.sub_diag. reflexivity.
Qed.

Lemma sub_nao_finito (x : float) :
  PrimFloat.is_finite x = false -> (x - x)%float = nan.
Proof.
  intros Hf. unfold PrimFloat.is_finite in Hf.
  apply negb_false_iff, orb_true_iff in Hf. destruct Hf as [H | H].
  - apply isna_true_iff in H. subst x. reflexivity.
  - destruct (is_infinity_SF x H) as (sx & Hx).
    apply Prim2SF_inj. rewrite FloatAxioms.sub_spec, Hx. destruct sx; reflexivity.
Qed.

(** X17: the difference of effective paid rates of a group against itself
    is exactly 0 percentage points when its rate is a finite number, and NaN
    when the rate is infinite or undefined. *)
Theorem X17_diferenca_consigo (a : Agg.t) :
  dif_aliq_paga_pp a a
  = if PrimFloat.is_finite (Agg.aliq_paga a) then 0%float else nan.
Proof.
  unfold dif_aliq_paga_pp.
  destruct (PrimFloat.is_finite (Agg.aliq_paga a)) eqn:F.
  - assert (N : isna (Agg.aliq_paga a) = false).
    { unfold PrimFloat.is_finite in F. apply negb_true_iff, orb_false_iff in F. tauto. }
    rewrite N, (sub_consigo _ F). reflexivity.
  - destruct (isna (Agg.aliq_paga a)); [reflexivity|].
    cbn [negb andb]. rewrite (sub_nao_finito _ F). reflexivity.
Qed.


(** ** One row per year *)

Ltac zops :=
  change IntDef.Z.sub with Z.sub in *; change IntDef.Z.add with Z.add in *;
  change IntDef.Z.min with Z.min in *; change IntDef.Z.max with Z.max in *;
  change IntDef.Z.leb with Z.leb in *; change IntDef.Z.shiftl with Z.shiftl in *;
  change IntDef.Z.div_eucl with Z.div_eucl in *.

Lemma arredonda_exato (sx : bool) (mx : positive) (ex : Z) :
  fexp prec emax (Z.pos (digits2_pos mx) + ex) = ex ->
  (ex <= emax - prec)%Z ->
  binary_round_aux prec emax sx (Z.pos mx) ex loc_Exact = S754_finite sx mx ex.
Proof.
  intros Hc Hb. unfold binary_round_aux, shr_fexp. zops.
  unfold Zdigits2. rewrite Hc, Z.sub_diag.
  cbn [shr shr_record_of_loc shr_m loc_of_shr_record round_nearest_even].
  unfold Zdigits2. rewrite Hc, Z.sub_diag. cbn [shr shr_record_of_loc shr_m].
  apply Z.leb_le in Hb. rewrite Hb. reflexivity.
Qed.

Lemma arredonda_dobro (sx : bool) (mx : positive) (ex : Z) :
  fexp prec emax (Z.pos (digits2_pos mx) + ex) = ex ->
  (ex <= emax - prec)%Z ->
  binary_round_aux prec emax sx (Z.pos mx~0) (ex - 1) loc_Exact = S754_finite sx mx ex.
Proof.
  intros Hc Hb. unfold binary_round_aux, shr_fexp. zops.
  unfold Zdigits2 at 1. cbn [digits2_pos].
  replace (Z.pos (Pos.succ (digits2_pos mx)) + (ex - 1))%Z
    with (Z.pos (digits2_pos mx) + ex)%Z by lia.
  rewrite Hc. replace (ex - (ex - 1))%Z with 1%Z by lia.
  cbn [shr shr_record_of_loc SpecFloat.iter_pos shr_1 orb shr_m loc_of_shr_record
       round_nearest_even].
  replace (ex - 1 + 1)%Z with ex by lia.
  unfold Zdigits2. rewrite Hc, Z.sub_diag. cbn [shr shr_record_of_loc shr_m].
  apply Z.leb_le in Hb. rewrite Hb. reflexivity.
Qed.

(** Dividing by one is exact. *)
Lemma SFdiv_1 (sx : bool) (mx : positive) (ex : Z) :
  valid_binary (S754_finite sx mx ex) = true ->
  SF64div (S754_finite sx mx ex) (Prim2SF 1) = S754_finite sx mx ex.
Proof.
  intros Hv. change (Prim2SF 1) with (S754_finite false 4503599627370496 (-52)).
  simpl in Hv. unfold bounded, canonical_mantissa in Hv.
  apply andb_true_iff in Hv. destruct Hv as [Hc Hb].
  apply Z.eqb_eq in Hc. apply Z.leb_le in Hb.
  unfold SF64div, SFdiv, SFdiv_core_binary. zops.
  change (Zdigits2 4503599627370496) with 53%Z.
  unfold Zdigits2.
  set (d := Z.pos (digits2_pos mx)) in *.
  set (E := Z.min (fexp prec emax (d + ex - (53 + -52))) (ex - -52)).
  assert (Hd : (0 < d)%Z) by (unfold d; lia).
  assert (HE : E = (ex - 1)%Z \/ E = ex).
  { unfold E. unfold fexp, emin, prec, emax in *. lia. }
  replace (xorb sx false) with sx by (destruct sx; reflexivity).
  destruct HE as [HE | HE]; rewrite HE.
  - replace (ex - -52 - (ex - 1))%Z with 53%Z by lia.
    rewrite Z.shiftl_mul_pow2 by lia.
    replace (Z.pos mx * 2 ^ 53)%Z with (4503599627370496 * Z.pos mx~0)%Z by lia.
    rewrite div_eucl_mul by lia.
    change (new_location 4503599627370496 0) with loc_Exact.
    apply arredonda_dobro; assumption.
  - replace (ex - -52 - ex)%Z with 52%Z by lia.
    rewrite Z.shiftl_mul_pow2 by lia.
    replace (Z.pos mx * 2 ^ 52)%Z with (4503599627370496 * Z.pos mx)%Z by lia.
    rewrite div_eucl_mul by lia.
    change (new_location 4503599627370496 0) with loc_Exact.
    apply arredonda_exato; assumption.
Qed.

Lemma div_1 (x : float) :
  PrimFloat.is_finite x = true -> PrimFloat.is_zero x = false -> (x / 1)%float = x.
Proof.
  intros Hf Hz. destruct (finito_nao_nulo x Hf Hz) as (sx & mx & ex & Hx).
  apply Prim2SF_inj. rewrite FloatAxioms.div_spec, Hx. apply SFdiv_1.
  rewrite <- Hx. apply Prim2SF_valid.
Qed.

(** The mean of a single finite non-zero value is that value. *)
Lemma mean_um (x : float) :
  PrimFloat.is_finite x = true -> PrimFloat.is_zero x = false -> mean [x] = x.
Proof.
  intros Hf Hz.
  assert (N : isna x = false).
  { unfold PrimFloat.is_finite in Hf. apply negb_true_iff, orb_false_iff in Hf. tauto. }
  unfold mean. cbn [filter]. rewrite N. cbn [negb fold_left List.length].
  change (float_of_Z (Z.of_nat 1)) with 1%float.
  destruct (finito_nao_nulo x Hf Hz) as (sx & mx & ex & Hx).
  rewrite (add_0_finito x sx mx ex Hx). apply div_1; assumption.
Qed.

Lemma media_do_grupo_user (df : DataFrame) (e : Entrada) (y : Z) :
  ocup_sel e <> ROTULO_JUD ->
  mean (do_grupo (serie df e) (y, ocup_sel e)) = media_do_ano (d_user df e) y.
Proof.
  intros HJ. unfold serie, media_do_ano.
  rewrite do_grupo_sorted, do_grupo_app, do_grupo_rotula.
  rewrite (do_grupo_outro_rotulo (ocup_sel e) ROTULO_JUD _ y)
    by (intros E; apply HJ; symmetry; exact E).
  rewrite app_nil_r. reflexivity.
Qed.

(** X18: for a subject label other than [Judiciário] and [ano_base], a
    year for which each subset has exactly one row, with finite non-zero
    incomes per contributor, has an entry in the pivot, and its ratio - the
    only one the pivot holds for that year - is exactly the reference row's
    income per contributor divided by the subject row's. *)
Theorem X18_uma_linha_por_ano (df : DataFrame) (e : Entrada) (out : Saida)
        (y : Z) (ru rj : Row) :
  ocup_sel e <> "ano_base"%string -> ocup_sel e <> ROTULO_JUD ->
  consulta df e = Pronto out ->
  filter (fun r => (ano_base r =? y)%Z) (d_user df e) = [ru] ->
  filter (fun r => (ano_base r =? y)%Z) (d_jud df e) = [rj] ->
  PrimFloat.is_finite (rend_total_por_contrib ru) = true ->
  PrimFloat.is_zero (rend_total_por_contrib ru) = false ->
  PrimFloat.is_finite (rend_total_por_contrib rj) = true ->
  PrimFloat.is_zero (rend_total_por_contrib rj) = false ->
  In (y, (rend_total_por_contrib rj / rend_total_por_contrib ru)%float)
     (Pivot.linhas (s_pivot out)) /\
  forall v, In (y, v) (Pivot.linhas (s_pivot out)) ->
            v = (rend_total_por_contrib rj / rend_total_por_contrib ru)%float.
Proof.
  intros Hab HJ Hc Hu Hj Fu Zu Fj Zj.
  assert (Hval : forall v, In (y, v) (Pivot.linhas (s_pivot out)) ->
                           v = (rend_total_por_contrib rj
                                / rend_total_por_contrib ru)%float).
  { intros v Hin. rewrite (linha_do_pivot df e out y v Hab HJ Hc Hin).
    unfold media_do_ano. rewrite Hu, Hj. cbn [map].
    rewrite (mean_um _ Fu Zu), (mean_um _ Fj Zj). reflexivity. }
  split; [|exact Hval].
  pose proof Hc as Hc'. apply consulta_pronto in Hc'.
  destruct Hc' as (_ & _ & _ & _ & _ & _ & _ & Hp).
  destruct (pivot_pronto (serie df e) (ocup_sel e) Hab (sem_coluna_ano_base df e Hab))
    as (p & Hp' & Ha & Hv).
  rewrite Hp in Hp'. inversion Hp'; subst p; clear Hp'.
  assert (Hin : In (y, razao_do_ano (serie df e) (ocup_sel e) y)
                   (Pivot.linhas (s_pivot out))).
  { apply (In_linhas _ _ _ y _ Ha Hv). split; [|reflexivity].
    apply In_pivot_indice. exists (ocup_sel e).
    rewrite (media_do_grupo_user df e y HJ). unfold media_do_ano.
    rewrite Hu. cbn [map]. rewrite (mean_um _ Fu Zu).
    unfold PrimFloat.is_finite in Fu. apply negb_true_iff, orb_false_iff in Fu.
    unfold isna. tauto. }
  rewrite <- (Hval _ Hin). exact Hin.
Qed.

Lemma X18_uma_linha_por_ano_witness :
  exists out, consulta df_ex e_ex = Pronto out /\
              In (2021%Z, (50000 / 10000)%float) (Pivot.linhas (s_pivot out)).
Proof.
  destruct (consulta df_ex e_ex) as [m|err|out] eqn:E;
    try (vm_compute in E; discriminate).
  exists out. split; [reflexivity|].
  assert (H1 : ocup_sel e_ex <> "ano_base"%string) by (vm_compute; discriminate).
  assert (H2 : ocup_sel e_ex <> ROTULO_JUD) by (vm_compute; discriminate).
  apply (X18_uma_linha_por_ano df_ex e_ex out 2021
           (linha 2021 SP MEDICO 100 1000000 200000 150000 160000)
           (linha 2021 SP OCUP_JUD 10 500000 250000 50000 60000)
           H1 H2 E); vm_compute; reflexivity.
Defined.

(** X19: when the total income of a subset sums to zero, its two percentage
    metrics - effective paid rate and exempt share - are shown as a dash,
    whatever the number format and the number of decimals. *)
Theorem X19_percentuais_sem_valor (fixo : nat -> float -> string) (casas : nat)
        (df_part : DataFrame) :
  (Series_sum (col rend_total df_part) =? 0)%float = true ->
  fmt_pct fixo (Agg.aliq_paga (agregados_ponderados df_part)) casas = TRAVESSAO /\
  fmt_pct fixo (Agg.pct_isento (agregados_ponderados df_part)) casas = TRAVESSAO.
Proof.
  intros H.
  assert (Hd : forall a, safe_div a (Some (Series_sum (col rend_total df_part))) = nan)
    by (intros a; apply safe_div_indefinido; auto).
  cbn [Agg.aliq_paga Agg.pct_isento agregados_ponderados].
  rewrite !Hd. split; reflexivity.
Qed.

Lemma X19_percentuais_sem_valor_witness :
  fmt_pct (fun _ _ => "12.5"%string)
          (Agg.aliq_paga (agregados_ponderados sem_contribuintes)) 1 = TRAVESSAO.
Proof.
  apply (X19_percentuais_sem_valor (fun _ _ => "12.5"%string) 1 sem_contribuintes).
  vm_compute. reflexivity.
Defined.
